(** * Web-Crawler-POC: the salvage parser, the session manager, the pricing
      loop and the discovery loop, embedded from [src/scraper.py] and
      [src/discovery_room.py].

    Conventions of the embedding.
    - A Python [str] is the list of its Unicode code points ([pystr]).
    - Python integers are [Z]. A Python [float] is the rational number it
      stands for; the subtraction of two clock readings rounds its exact
      result to the nearest binary64 number, as the hardware does.
    - Library calls whose code is not part of the repository ([json.loads],
      pydantic's [model_validate], [strftime], [repr]) are fields of the
      record [Lib]; the clock, the random draws and the crawler are fields
      of the record [Env].
    - Loops with side effects are written in state-passing style over an
      explicit log of observable effects. *)

From Stdlib Require Import ZArith NArith QArith Qround Qpower Lia Bool.
From Stdlib Require DecimalString DecimalPos DecimalZ.
From Stdlib Require Import Lqa.
From stdpp Require Import base option list strings gmap sets sorting.

Local Open Scope Z_scope.

(** ** Python strings as code-point sequences *)

Abbreviation pystr := (list N).

(** [py "abc"] is the Python literal ['abc'] (ASCII literals only). *)
Definition py (s : string) : pystr :=
  map Ascii.N_of_ascii (String.list_ascii_of_string s).

Definition lbrace : N := 123%N.
Definition rbrace : N := 125%N.
Definition quote : N := 34%N.
Definition backslash : N := 92%N.

(** Python's [len], as an integer. *)
Definition len {A} (l : list A) : Z := Z.of_nat (length l).

(** [str.isspace] on one code point: the characters that [str.strip()]
    removes (CPython's [_PyUnicode_IsWhitespace]). *)
Definition is_space (c : N) : bool :=
  ((9 <=? c) && (c <=? 13) || (28 <=? c) && (c <=? 32)
   || (c =? 133) || (c =? 160) || (c =? 5760)
   || (8192 <=? c) && (c <=? 8202)
   || (c =? 8232) || (c =? 8233) || (c =? 8239) || (c =? 8287)
   || (c =? 12288))%N.

Fixpoint lstrip (s : pystr) : pystr :=
  match s with
  | [] => []
  | c :: s' => if is_space c then lstrip s' else s
  end.

Definition rstrip (s : pystr) : pystr := rev (lstrip (rev s)).

(** [text.strip()] *)
Definition strip (s : pystr) : pystr := lstrip (rstrip s).

(** Python slicing [s[lo:hi]] (step 1), negative and out-of-range indices
    included. *)
Definition norm_index (n i : Z) : Z :=
  if i <? 0 then Z.max 0 (n + i) else Z.min i n.

Definition slice {A} (s : list A) (lo hi : Z) : list A :=
  let a := norm_index (len s) lo in
  let b := norm_index (len s) hi in
  take (Z.to_nat (b - a)) (drop (Z.to_nat a) s).

(** [needle in hay] for strings. *)
Fixpoint is_prefix (p s : pystr) : bool :=
  match p, s with
  | [], _ => true
  | _ :: _, [] => false
  | a :: p', b :: s' => (a =? b)%N && is_prefix p' s'
  end.

Fixpoint contains (needle hay : pystr) : bool :=
  is_prefix needle hay ||
  match hay with
  | [] => false
  | _ :: hay' => contains needle hay'
  end.

(** ** [extract_first_json_object] (scraper.py, lines 67-95) *)

Module Salvage.

(** The loop variables. *)
Record scan_state := ScanState {
  start : Z;
  brace_count : Z;
  in_string : bool;
  escape : bool
}.

Definition init_state : scan_state := ScanState (-1) 0 false false.

(** One iteration of the [for i, ch in enumerate(s)] loop: either the loop
    goes on with new variables or the function returns [s[lo:hi]]. *)
Inductive step_result :=
| Continue (st : scan_state)
| Return (lo hi : Z).

Definition step (i : Z) (ch : N) (st : scan_state) : step_result :=
  if (ch =? backslash)%N && negb (escape st) then
    (* escape = True; continue *)
    Continue (ScanState (start st) (brace_count st) (in_string st) true)
  else
    let ins :=
      if (ch =? quote)%N && negb (escape st) then negb (in_string st)
      else in_string st in
    (* the trailing [if escape: escape = False] clears the flag on every
       path that reaches the end of the body *)
    if ins then Continue (ScanState (start st) (brace_count st) ins false)
    else if (ch =? lbrace)%N then
      let start' := if brace_count st =? 0 then i else start st in
      Continue (ScanState start' (brace_count st + 1) ins false)
    else if (ch =? rbrace)%N then
      if brace_count st >? 0 then
        let bc := brace_count st - 1 in
        if (bc =? 0) && negb (start st =? -1) then Return (start st) (i + 1)
        else Continue (ScanState (start st) bc ins false)
      else Continue (ScanState (start st) (brace_count st) ins false)
    else Continue (ScanState (start st) (brace_count st) ins false).

(** The [for] loop from index [i] on: [Return lo hi] when the body returns
    [s[lo:hi]], [Continue st] when the loop runs off the end of the text
    with the variables [st]. *)
Fixpoint run (i : Z) (l : pystr) (st : scan_state) : step_result :=
  match l with
  | [] => Continue st
  | ch :: l' =>
      match step i ch st with
      | Return lo hi => Return lo hi
      | Continue st' => run (i + 1) l' st'
      end
  end.

Definition extract_first_json_object (text : pystr) : option pystr :=
  match text with
  | [] => None                            (* if not text: return None *)
  | _ =>
      let s := strip text in
      match run 0 s init_state with
      | Return lo hi => Some (slice s lo hi)
      | Continue _ => None
      end
  end.

(** *** Invariants of the loop, for the proofs *)

(** While an object is open, [start] is the index of its opening brace. *)
Definition start_ok (pre : pystr) (st : scan_state) : Prop :=
  0 < brace_count st ->
  0 <= start st < len pre ∧ pre !! Z.to_nat (start st) = Some lbrace.

(** The variables of two scans of the same characters, the second [k]
    places further to the right in its text: equal but for an open [start],
    which is [k] larger. *)
Definition shifted (k : Z) (st st' : scan_state) : Prop :=
  brace_count st' = brace_count st ∧ in_string st' = in_string st
  ∧ escape st' = escape st
  ∧ (0 < brace_count st -> 0 <= start st ∧ start st' = start st + k).

(** The same for what a scan comes to: both go on, or both return, the
    second slice [k] places to the right of the first. *)
Definition shifted_result (k : Z) (r r' : step_result) : Prop :=
  match r, r' with
  | Continue st, Continue st' => shifted k st st'
  | Return lo hi, Return lo' hi' => lo' = lo + k ∧ hi' = hi + k
  | _, _ => False
  end.

End Salvage.

(** ** Values shared by the two scripts *)

(** [str(n)] for an integer. *)
Definition str_of_int (n : Z) : pystr :=
  py (DecimalString.NilZero.string_of_int (Z.to_int n)).

(** [int(x)] for a clock reading: truncation towards zero. *)
Definition int_of_time (x : Q) : Z := Z.quot (Qnum x) (Z.pos (Qden x)).

(** *** Subtraction of floats

    [a - b] on Python floats is the IEEE 754 binary64 subtraction: the
    exact difference, rounded to the nearest number with a 53-bit
    significand (exponents from -1074 on), ties to the even significand.
    Overflow to infinity is left out: clock readings are far from it. *)

(** Rounding to the nearest integer, ties to even. *)
Definition round_half_even (q : Q) : Z :=
  let f := Qfloor q in
  match Qcompare (q - inject_Z f) (1 # 2) with
  | Lt => f
  | Gt => f + 1
  | Eq => if Z.even f then f else f + 1
  end.

(** The exponent [k] with [2^k <= a < 2^(k+1)], for [a > 0]. *)
Definition binade (a : Q) : Z :=
  if Qle_bool 1 a then Z.log2 (Qfloor a)
  else - Z.log2_up (Qceiling (/ a)).

Definition scale2 (q : Q) (e : Z) : Q := (q * 2 ^ e)%Q.

(** The binary64 number nearest to [a > 0]: a multiple of [2^e], where [e]
    leaves 53 bits to the significand and is at least -1074. *)
Definition round_pos (a : Q) : Q :=
  let e := Z.max (binade a - 52) (-1074) in
  scale2 (inject_Z (round_half_even (scale2 a (- e)))) e.

Definition round_binary64 (q : Q) : Q :=
  match Qcompare q 0 with
  | Eq => 0%Q
  | Gt => round_pos q
  | Lt => (- round_pos (- q))%Q
  end.

(** [a - b] *)
Definition float_sub (a b : Q) : Q := round_binary64 (a - b).

(** [range(n)] *)
Definition py_range (n : Z) : list Z := map Z.of_nat (seq 0 (Z.to_nat n)).

(** [enumerate(l, k)] *)
Fixpoint enumerate {A} (k : Z) (l : list A) : list (Z * A) :=
  match l with
  | [] => []
  | x :: l' => (k, x) :: enumerate (k + 1) l'
  end.

(** A [datetime.date] is its proleptic Gregorian ordinal ([toordinal()]);
    [timedelta(days=n)] is [n]. Adding a [timedelta] raises [OverflowError]
    outside [date.min .. date.max]. *)
Definition date := Z.
Definition date_min : date := 1.
Definition date_max : date := 3652059.

Definition date_add (d : date) (days : Z) : option date :=
  let o := d + days in
  if (date_min <=? o) && (o <=? date_max) then Some o else None.

(** Parsed JSON, as [json.loads] returns it. *)
#[local] Set Warnings "-register-all".
Inductive json :=
| JNull
| JBool (b : bool)
| JNumber (text : pystr)
| JString (s : pystr)
| JArray (items : list json)
| JObject (members : list (pystr * json)).

Record RoomListing := { name : pystr; price : pystr }.
Record DailyRate := { rate_date : pystr; listings : list RoomListing }.
Record HotelData := { data_hotel_name : pystr; daily_rates : list DailyRate }.

Record Metadata := {
  discovery_dates_checked : Z;
  sample_dates : list pystr;
  sample_interval_days : Z;
  total_rooms_discovered : Z
}.

Record HotelProfile := {
  hotel_name : pystr;
  hotel_url : pystr;
  room_types : list pystr;
  last_updated : pystr;
  metadata : option Metadata
}.

(** The crawler's answer: [result.success], [result.extracted_content],
    [result.error_message]. *)
Record CrawlResult := {
  success : bool;
  extracted_content : option pystr;
  error_message : option pystr
}.

(** [result.success and result.extracted_content], as a condition: the
    content when it is a non-empty string. *)
Definition usable_content (r : CrawlResult) : option pystr :=
  if success r then
    match extracted_content r with
    | Some (c :: cs) => Some (c :: cs)
    | _ => None
    end
  else None.

(** Library functions the scripts call. *)
Record Lib := {
  json_loads : pystr -> option json;          (* None: JSONDecodeError *)
  model_validate : json -> option DailyRate;  (* None: ValidationError *)
  strftime : date -> pystr;                   (* strftime('%Y-%m-%d') *)
  repr_dict : list (pystr * json) -> pystr    (* str(d) for a dict d *)
}.

(** The outside world, consulted at successive ticks. *)
Record Env := {
  time_time : nat -> Q;                  (* time.time() *)
  random_raw : nat -> Z;                 (* the random source *)
  arun : nat -> pystr -> CrawlResult;    (* crawler.arun(url=...) *)
  today_iso : pystr                      (* date.today().isoformat() *)
}.

(** [random._randbelow(n)]: a number in [0, n). *)
Definition randbelow (E : Env) (t : nat) (n : Z) : Z := random_raw E t mod n.

(** [random.choice(seq)] *)
Definition random_choice {A} (E : Env) (t : nat) (l : list A) (d : A) : A :=
  nth (Z.to_nat (randbelow E t (len l))) l d.

(** [random.randint(a, b)] *)
Definition randint (E : Env) (t : nat) (a b : Z) : Z :=
  a + randbelow E t (b - a + 1).

(** The date-scoped URL both scripts build. *)
Definition build_url (base checkin_str checkout_str : pystr) : pystr :=
  base ++ py "?chkin=" ++ checkin_str ++ py "&chkout=" ++ checkout_str
       ++ py "&x_pwa=1&rfrr=HSR".

(** [str.lower()], as far as a match against an ASCII needle can tell:
    ASCII capitals, and the two other code points whose lower case contains
    an ASCII letter (U+0130, U+212A); the lower case of any other code point
    is not ASCII and the code point is kept. *)
Definition lower_cp (c : N) : pystr :=
  if ((65 <=? c) && (c <=? 90))%N then [(c + 32)%N]
  else if (c =? 304)%N then [105%N; 775%N]
  else if (c =? 8490)%N then [107%N]
  else [c].

Definition lower (s : pystr) : pystr := flat_map lower_cp s.

(** Comparison of strings, [a <= b]: lexicographic on code points. *)
Fixpoint str_leb (a b : pystr) : bool :=
  match a, b with
  | [], _ => true
  | _ :: _, [] => false
  | x :: a', y :: b' => (x <? y)%N || ((x =? y)%N && str_leb a' b')
  end.

Definition str_le (a b : pystr) : Prop := str_leb a b = true.

Global Instance str_le_dec a b : Decision (str_le a b).
Proof. unfold str_le. apply _. Defined.

(** [sorted(xs)] on strings. *)
Definition sorted (l : list pystr) : list pystr := merge_sort str_le l.

(** ** [SessionManager] (scraper.py, lines 109-144 and 468-504) *)

Module Session.

Definition user_agents : list pystr := [
  py "Mozilla/5.0 (Windows NT 10.0; Win64; x64) AppleWebKit/537.36 (KHTML, like Gecko) Chrome/120.0.0.0 Safari/537.36";
  py "Mozilla/5.0 (Windows NT 10.0; Win64; x64) AppleWebKit/537.36 (KHTML, like Gecko) Chrome/119.0.0.0 Safari/537.36";
  py "Mozilla/5.0 (Macintosh; Intel Mac OS X 10_15_7) AppleWebKit/537.36 (KHTML, like Gecko) Chrome/120.0.0.0 Safari/537.36";
  py "Mozilla/5.0 (Macintosh; Intel Mac OS X 10_15_7) AppleWebKit/537.36 (KHTML, like Gecko) Chrome/119.0.0.0 Safari/537.36";
  py "Mozilla/5.0 (Windows NT 10.0; Win64; x64; rv:121.0) Gecko/20100101 Firefox/121.0";
  py "Mozilla/5.0 (Windows NT 10.0; Win64; x64; rv:120.0) Gecko/20100101 Firefox/120.0";
  py "Mozilla/5.0 (Macintosh; Intel Mac OS X 10.15; rv:121.0) Gecko/20100101 Firefox/121.0";
  py "Mozilla/5.0 (Macintosh; Intel Mac OS X 10.15; rv:120.0) Gecko/20100101 Firefox/120.0";
  py "Mozilla/5.0 (Macintosh; Intel Mac OS X 10_15_7) AppleWebKit/605.1.15 (KHTML, like Gecko) Version/17.2 Safari/605.1.15";
  py "Mozilla/5.0 (Macintosh; Intel Mac OS X 10_15_7) AppleWebKit/605.1.15 (KHTML, like Gecko) Version/17.1 Safari/605.1.15";
  py "Mozilla/5.0 (Windows NT 10.0; Win64; x64) AppleWebKit/537.36 (KHTML, like Gecko) Chrome/120.0.0.0 Safari/537.36 Edg/120.0.0.0"
].

Record Viewport := { width : Z; height : Z }.

Definition viewports : list Viewport := [
  {| width := 1920; height := 1080 |};
  {| width := 1366; height := 768 |};
  {| width := 1440; height := 900 |};
  {| width := 1536; height := 864 |};
  {| width := 1280; height := 720 |};
  {| width := 1600; height := 900 |};
  {| width := 2560; height := 1440 |}
].

Definition get_random_user_agent (E : Env) (t : nat) : pystr :=
  random_choice E t user_agents [].

Definition get_random_viewport (E : Env) (t : nat) : Viewport :=
  random_choice E t viewports {| width := 0; height := 0 |}.

Record SessionManager := {
  session_id : pystr;
  user_agent : pystr;
  viewport : Viewport;
  request_count : Z;
  start_time : Q
}.

(** [__init__]: reads the clock, draws the id suffix, the user agent and
    the viewport, and reads the clock again; five consultations of the
    environment from tick [t] on. *)
Definition init (E : Env) (t : nat) : SessionManager * nat :=
  ({| session_id :=
        py "session_" ++ str_of_int (int_of_time (time_time E t))
          ++ py "_" ++ str_of_int (randint E (t + 1) 1000 9999);
      user_agent := get_random_user_agent E (t + 2);
      viewport := get_random_viewport E (t + 3);
      request_count := 0;
      start_time := time_time E (t + 4) |},
   (t + 5)%nat).

Definition time_limit : Z := 20 * 60.
Definition request_limit : Z := 10.

(** [should_rotate_session], with the clock reading [now] it takes. *)
Definition should_rotate_session (now : Q) (sm : SessionManager) : bool :=
  let elapsed := float_sub now (start_time sm) in
  (request_count sm >=? request_limit)
  || Qle_bool (inject_Z time_limit) elapsed.

Definition increment_request (sm : SessionManager) : SessionManager :=
  {| session_id := session_id sm;
     user_agent := user_agent sm;
     viewport := viewport sm;
     request_count := request_count sm + 1;
     start_time := start_time sm |}.

(** [rotate_session]: [cleanup_browser_data()] only prints, then
    [self.__init__()]. *)
Definition rotate_session (E : Env) (t : nat) (sm : SessionManager)
  : SessionManager * nat :=
  init E t.

End Session.

(** ** [scrape_hotel_prices] (scraper.py, lines 507-877) *)

Module Pricing.
Import Session.

(** What a run does to the outside, in order. Console output is kept only
    where it reports a condition (warnings and failures). *)
Inductive Event :=
| EvRotate                                   (* rotate_session() *)
| EvDelay (lo hi : Z)                        (* human_like_delay(lo, hi) *)
| EvWarmUp                                   (* warm_up_session(...) *)
| EvCrawl (idx : Z) (url : pystr) (ua : pystr) (vp : Viewport)
                                             (* crawler.arun(url=url, ...) *)
| EvWriteFile (file content : pystr)         (* open(file, 'w', encoding='utf-8')
                                                  .write(content) *)
| EvWarnFewer (extracted expected : Z)       (* "Only found x of y expected rooms" *)
| EvMissing (names : gset pystr)             (* "Missing: ..." *)
| EvUnexpectedFormat                         (* "Unexpected data format" *)
| EvParseFailed                              (* "Failed to parse data" *)
| EvScrapeFailed.                            (* "Failed to scrape data" *)

Record RunState := {
  tick : nat;
  session_manager : SessionManager;
  all_daily_rates : list DailyRate;
  log : list Event
}.

(** Text that a file opened with [encoding='utf-8'] takes: text without a
    surrogate code point (U+D800 to U+DFFF). On other text [f.write] raises
    [UnicodeEncodeError], which nothing in [scrape_hotel_prices] catches;
    [EvWriteFile] stands for a write that succeeds, and the statements
    about what is saved are made for text of this kind. *)
Definition utf8_encodable (s : pystr) : Prop :=
  Forall (fun c => (c < 55296)%N ∨ (57343 < c)%N) s.

Definition emit (es : list Event) (s : RunState) : RunState :=
  {| tick := tick s; session_manager := session_manager s;
     all_daily_rates := all_daily_rates s; log := log s ++ es |}.

Definition rotate (E : Env) (s : RunState) : RunState :=
  let '(sm, t) := rotate_session E (tick s) (session_manager s) in
  {| tick := t; session_manager := sm;
     all_daily_rates := all_daily_rates s; log := log s ++ [EvRotate] |}.

(** The script injected into the page (lines 680-688): its keyword list
    and its test
    [captchaKeywords.some(keyword => pageContent.includes(keyword.toLowerCase()))]
    on [document.body.innerText.toLowerCase()]. The [wait_for] argument
    (lines 648-671) spells out the same five keywords, but it is a single
    line of JavaScript that begins with a line comment, so that no test of
    its own is run from it. *)
Definition captchaKeywords : list pystr := [
  py "Show us your human side";
  py "prove you are human";
  py "captcha";
  py "robot";
  py "Start Puzzle"
].

Definition page_has_captcha (page_text : pystr) : bool :=
  let pageContent := lower page_text in
  existsb (fun keyword => contains (lower keyword) pageContent)
          captchaKeywords.

(** The keyword list of the response check (line 764) and its test
    [any(indicator in content_lower for indicator in captcha_indicators)]. *)
Definition captcha_indicators : list pystr := [
  py "show us your human side";
  py "prove you are human";
  py "captcha";
  py "start puzzle"
].

Definition has_captcha (content : pystr) : bool :=
  let content_lower := lower content in
  existsb (fun indicator => contains indicator content_lower)
          captcha_indicators.

(** Lines 793-816: the comparison of a validated rate with the profile.
    [missing] is [set(room_types) - set(names)]. *)
Definition missing_rooms (room_types : list pystr) (v : DailyRate)
  : gset pystr :=
  list_to_set room_types ∖ list_to_set (map name (listings v)).

Definition analyse (room_types : list pystr) (v : DailyRate) : list Event :=
  let total_expected := len room_types in
  let total_extracted := len (listings v) in
  if total_extracted <? total_expected then
    let missing := missing_rooms room_types v in
    EvWarnFewer total_extracted total_expected ::
    (if decide (missing = ∅) then [] else [EvMissing missing])
  else [].

Record UrlDate := { url : pystr; date_str : pystr }.

(** Lines 785-786: [json_candidate if json_candidate else raw_output]. *)
Definition to_parse (raw_output : pystr) : pystr :=
  let json_candidate := Salvage.extract_first_json_object raw_output in
  match json_candidate with
  | Some (c :: cs) => c :: cs
  | _ => raw_output
  end.

(** Line 771: [f"captcha_page_{current_date_str}.html"]. *)
Definition captcha_file (current_date_str : pystr) : pystr :=
  py "captcha_page_" ++ current_date_str ++ py ".html".

Section WithWorld.
Context (L : Lib) (E : Env).

(** Lines 547-556: the URLs of the run; [None] when a date leaves the range
    of [datetime.date] ([OverflowError]). *)
Definition plan_item (base : pystr) (start_date : date) (i : Z)
  : option UrlDate :=
  checkin_date ← date_add start_date i;
  checkout_date ← date_add checkin_date 1;
  let checkin_str := strftime L checkin_date in
  let checkout_str := strftime L checkout_date in
  Some {| url := build_url base checkin_str checkout_str;
          date_str := checkin_str |}.

Definition plan (base : pystr) (start_date : date) (num_days_to_scrape : Z)
  : option (list UrlDate) :=
  mapM (plan_item base start_date) (py_range num_days_to_scrape).

(** Lines 781-829: what is done with a usable response that is not a CAPTCHA
    page. *)
Definition parse_failed (current_date_str content : pystr) (s : RunState)
  : RunState :=
  emit [EvParseFailed;
        EvWriteFile (py "debug_" ++ current_date_str ++ py ".txt") content] s.

Definition handle_content (profile : HotelProfile)
    (current_date_str raw_output : pystr) (s : RunState) : RunState :=
  match json_loads L (to_parse raw_output) with
  | None => parse_failed current_date_str raw_output s
  | Some (JObject members) =>
      match model_validate L (JObject members) with
      | None => parse_failed current_date_str raw_output s
      | Some validated_data =>
          emit (analyse (room_types profile) validated_data)
            {| tick := tick s; session_manager := session_manager s;
               all_daily_rates := all_daily_rates s ++ [validated_data];
               log := log s |}
      end
  | Some _ => emit [EvUnexpectedFormat] s
  end.

(** Lines 565-591: what the body of the loop does before the crawl, for the
    [idx]-th item (counted from 1): the rotation check, the request count,
    the delay between requests and the warm-up. *)
Definition before_crawl (idx : Z) (s : RunState) : RunState :=
  let now := time_time E (tick s) in
  let s := {| tick := S (tick s); session_manager := session_manager s;
              all_daily_rates := all_daily_rates s; log := log s |} in
  let s := if should_rotate_session now (session_manager s)
           then rotate E s else s in
  let s := {| tick := tick s;
              session_manager := increment_request (session_manager s);
              all_daily_rates := all_daily_rates s; log := log s |} in
  let s := if idx >? 1 then emit [EvDelay 8 20] s else s in
  if idx =? 1 then emit [EvWarmUp] s else s.

(** Lines 761-838: what the body does with the crawler's answer. The two
    files written here are opened with [encoding='utf-8'] outside any
    [try] that would catch a failure of the write: this is the body for
    answers whose text is [utf8_encodable]. *)
Definition after_crawl (profile : HotelProfile) (current_date_str : pystr)
    (result : CrawlResult) (s : RunState) : RunState :=
  match usable_content result with
  | Some content =>
      if has_captcha content then
        (* save the page, rotate, wait, continue with the next item *)
        let s := emit [EvWriteFile (captcha_file current_date_str) content] s in
        let s := rotate E s in
        emit [EvDelay 30 60] s
      else handle_content profile current_date_str content s
  | None =>
      let s := emit [EvScrapeFailed] s in
      let s := rotate E s in
      emit [EvDelay 5 10] s
  end.

(** Lines 560-838: the body of the loop over the planned dates. *)
Definition scrape_one (profile : HotelProfile) (idx : Z) (item : UrlDate)
    (s : RunState) : RunState :=
  let s := before_crawl idx s in
  let result := arun E (tick s) (url item) in
  let s := {| tick := S (tick s); session_manager := session_manager s;
              all_daily_rates := all_daily_rates s;
              log := log s ++ [EvCrawl idx (url item)
                                 (user_agent (session_manager s))
                                 (viewport (session_manager s))] |} in
  after_crawl profile (date_str item) result s.

(** [for idx, item in enumerate(urls_and_dates, 1)] *)
Definition scrape_loop (profile : HotelProfile)
    (urls_and_dates : list UrlDate) (s : RunState) : RunState :=
  foldl (fun s '(idx, item) => scrape_one profile idx item s) s
        (enumerate 1 urls_and_dates).

Record Outcome := {
  final_data : option HotelData;   (* the value returned *)
  effects : list Event
}.

(** The function; [None] when it raises while planning. *)
Definition scrape_hotel_prices (profile : HotelProfile) (start_date : date)
    (num_days_to_scrape : Z) : option Outcome :=
  let '(sm, t) := init E 0 in
  urls_and_dates ← plan (hotel_url profile) start_date num_days_to_scrape;
  let s0 := {| tick := t; session_manager := sm;
               all_daily_rates := []; log := [] |} in
  let s := scrape_loop profile urls_and_dates s0 in
  Some {| final_data :=
            match all_daily_rates s with
            | [] => None
            | rates => Some {| data_hotel_name := hotel_name profile;
                               daily_rates := rates |}
            end;
          effects := log s |}.

End WithWorld.

(** The URLs crawled, in order, with the loop index of each crawl. *)
Definition crawls (l : list Event) : list (Z * pystr) :=
  omap (fun e => match e with
                 | EvCrawl idx u _ _ => Some (idx, u)
                 | _ => None
                 end) l.

(** *** Vocabulary of the statements about the loop *)

(** The item planned for day [i] of a pricing run. *)
Definition planned (L : Lib) (base : pystr) (start : date) (i : Z) : UrlDate :=
  {| url := build_url base (strftime L (start + i)) (strftime L (start + i + 1));
     date_str := strftime L (start + i) |}.

(** What may precede a crawl in the body of the loop. *)
Definition prelude (e : Event) : Prop :=
  e = EvRotate ∨ e = EvDelay 8 20 ∨ e = EvWarmUp.

(** A crawl event as the pair of its index and URL. *)
Definition crawl_of (p : Z * UrlDate) : Z * pystr := (fst p, url (snd p)).




End Pricing.

(** ** [discover_hotel_rooms] (discovery_room.py, lines 58-243) *)

Module Discovery.

Inductive Event :=
| EvSleep (lo hi : Z)                 (* asyncio.sleep(random.uniform(lo, hi)) *)
| EvCrawl (url : pystr)               (* crawler.arun(url=url, ...) *)
| EvNewRooms (rooms : list pystr)     (* "New room types discovered" *)
| EvUnexpectedFormat
| EvParseFailed
| EvExtractFailed.

Record LoopState := {
  tick : nat;
  discovered_rooms : gset pystr;
  sample_dates_acc : list pystr;
  log : list Event
}.

Section WithWorld.
Context (L : Lib) (E : Env).

(** [isinstance(item, (str, dict))] and [str(item)] for such an item. *)
Definition str_or_dict (item : json) : bool :=
  match item with
  | JString _ | JObject _ => true
  | _ => false
  end.

Definition py_str (item : json) : pystr :=
  match item with
  | JString s => s
  | JObject members => repr_dict L members
  | _ => []
  end.

(** Line 194: [set(str(item) for item in room_list if isinstance(...))] *)
Definition current_sample_rooms (room_list : list json) : gset pystr :=
  list_to_set (map py_str (filter (fun item => str_or_dict item = true) room_list)).

(** [discovered_rooms.update(current_sample_rooms)] *)
Definition update (discovered current : gset pystr) : gset pystr :=
  discovered ∪ current.

(** Lines 189-212: what is done with the crawler's answer. *)
Definition absorb (result : CrawlResult) (s : LoopState) : LoopState :=
  match usable_content result with
  | Some content =>
      match json_loads L content with
      | Some (JArray room_list) =>
          let current := current_sample_rooms room_list in
          let new_rooms := current ∖ discovered_rooms s in
          {| tick := tick s;
             discovered_rooms := update (discovered_rooms s) current;
             sample_dates_acc := sample_dates_acc s;
             log := log s ++
                    (if decide (new_rooms = ∅) then []
                     else [EvNewRooms (sorted (elements new_rooms))]) |}
      | Some _ =>
          {| tick := tick s; discovered_rooms := discovered_rooms s;
             sample_dates_acc := sample_dates_acc s;
             log := log s ++ [EvUnexpectedFormat] |}
      | None =>
          {| tick := tick s; discovered_rooms := discovered_rooms s;
             sample_dates_acc := sample_dates_acc s;
             log := log s ++ [EvParseFailed] |}
      end
  | None =>
      {| tick := tick s; discovered_rooms := discovered_rooms s;
         sample_dates_acc := sample_dates_acc s;
         log := log s ++ [EvExtractFailed] |}
  end.

(** Lines 105-212: the body of the loop, for one [day_offset]; [None] when
    the date arithmetic raises [OverflowError]. *)
Definition sample_one (base_url : pystr) (start_date : date)
    (sample_interval : Z) (day_offset : Z) (s : LoopState)
  : option LoopState :=
  checkin_date ← date_add start_date (day_offset * sample_interval);
  checkout_date ← date_add checkin_date 1;
  let checkin_str := strftime L checkin_date in
  let checkout_str := strftime L checkout_date in
  let url := build_url base_url checkin_str checkout_str in
  let result := arun E (tick s) url in
  Some (absorb result
    {| tick := S (tick s);
       discovered_rooms := discovered_rooms s;
       sample_dates_acc := sample_dates_acc s ++ [checkin_str];
       log := log s ++ (if day_offset >? 0 then [EvSleep 3 7] else [])
                    ++ [EvCrawl url] |}).

Fixpoint sample_loop (base_url : pystr) (start_date : date)
    (sample_interval : Z) (offsets : list Z) (s : LoopState)
  : option LoopState :=
  match offsets with
  | [] => Some s
  | day_offset :: offsets' =>
      s' ← sample_one base_url start_date sample_interval day_offset s;
      sample_loop base_url start_date sample_interval offsets' s'
  end.

Record Outcome := {
  profile : HotelProfile;      (* the value returned *)
  effects : list Event
}.

Definition discover_hotel_rooms (hotel_name base_url : pystr)
    (start_date : date) (num_days_to_check sample_interval : Z)
  : option Outcome :=
  let s0 := {| tick := 0; discovered_rooms := ∅;
               sample_dates_acc := []; log := [] |} in
  s ← sample_loop base_url start_date sample_interval
        (py_range num_days_to_check) s0;
  Some {| profile :=
            {| hotel_name := hotel_name;
               hotel_url := base_url;
               room_types := sorted (elements (discovered_rooms s));
               last_updated := today_iso E;
               metadata := Some
                 {| discovery_dates_checked := num_days_to_check;
                    sample_dates := sample_dates_acc s;
                    sample_interval_days := sample_interval;
                    total_rooms_discovered :=
                      Z.of_nat (size (discovered_rooms s)) |} |};
          effects := log s |}.

End WithWorld.

(** The room names one answer of the crawler contributes. *)
Definition sample_rooms (L : Lib) (result : CrawlResult) : gset pystr :=
  match usable_content result with
  | Some content =>
      match json_loads L content with
      | Some (JArray room_list) => current_sample_rooms L room_list
      | _ => ∅
      end
  | None => ∅
  end.

(** The aggregation the loop performs, on its own: the per-date sets are
    folded into [discovered_rooms] with [update], and the profile lists the
    result sorted. *)
Definition union_all (samples : list (gset pystr)) : gset pystr :=
  foldl update ∅ samples.

Definition catalog (samples : list (gset pystr)) : list pystr :=
  sorted (elements (union_all samples)).

Definition crawls (l : list Event) : list pystr :=
  omap (fun e => match e with EvCrawl u => Some u | _ => None end) l.

(** The URL sampled for one [day_offset], and the crawler's answers of a
    run that starts at tick [t], date by date. *)
Definition sample_url (L : Lib) (base_url : pystr) (start_date : date)
    (sample_interval day_offset : Z) : pystr :=
  build_url base_url
    (strftime L (start_date + day_offset * sample_interval))
    (strftime L (start_date + day_offset * sample_interval + 1)).

Fixpoint answers (L : Lib) (E : Env) (base_url : pystr) (start_date : date)
    (sample_interval : Z) (t : nat) (offsets : list Z) : list CrawlResult :=
  match offsets with
  | [] => []
  | day_offset :: offsets' =>
      arun E t (sample_url L base_url start_date sample_interval day_offset)
      :: answers L E base_url start_date sample_interval (S t) offsets'
  end.

(** The dates of a [day_offset] lie in the range of [datetime.date]. *)
Definition sample_in_range (start : date) (interval off : Z) : Prop :=
  date_min <= start + off * interval ∧ start + off * interval + 1 <= date_max.

End Discovery.

(** ** Stand-ins for the libraries and the outside world, for examples *)

(** A [strftime('%Y-%m-%d')] for years 1000 to 9999. *)
Definition two_digits (n : Z) : pystr :=
  (if n <? 10 then py "0" else []) ++ str_of_int n.

Definition iso_strftime (d : date) : pystr :=
  let z := d + 305 in
  let era := z / 146097 in
  let doe := z - era * 146097 in
  let yoe := (doe - doe / 1460 + doe / 36524 - doe / 146096) / 365 in
  let doy := doe - (365 * yoe + yoe / 4 - yoe / 100) in
  let mp := (5 * doy + 2) / 153 in
  let day := doy - (153 * mp + 2) / 5 + 1 in
  let month := if mp <? 10 then mp + 3 else mp - 9 in
  let year := yoe + era * 400 + (if month <=? 2 then 1 else 0) in
  str_of_int year ++ py "-" ++ two_digits month ++ py "-" ++ two_digits day.

(** A library whose JSON functions reject every input. *)
Definition demo_lib : Lib :=
  {| json_loads := fun _ => None;
     model_validate := fun _ => None;
     strftime := iso_strftime;
     repr_dict := fun _ => [] |}.

(** A library that parses every input to an object and validates it as
    the rate [v]. *)
Definition fixed_lib (v : DailyRate) : Lib :=
  {| json_loads := fun _ => Some (JObject []);
     model_validate := fun _ => Some v;
     strftime := iso_strftime;
     repr_dict := fun _ => [] |}.

(** A world in which every crawl gives the same answer. *)
Definition const_env (r : CrawlResult) : Env :=
  {| time_time := fun _ => 0%Q;
     random_raw := fun _ => 0;
     arun := fun _ _ => r;
     today_iso := py "2025-08-26" |}.

Definition page (content : pystr) : CrawlResult :=
  {| success := true; extracted_content := Some content;
     error_message := None |}.

Definition demo_profile : HotelProfile :=
  {| hotel_name := py "Minn Juso";
     hotel_url := py "https://example.test/hotel";
     room_types := [py "Double Room"; py "Standard Room"; py "Twin Room"];
     last_updated := py "2025-08-01";
     metadata := None |}.

(** Rates for the three rooms of [demo_profile]: one that lists two of
    them, one that lists two of them and a room the profile does not know;
    and the state of a run before its first date. *)
Definition two_of_three : DailyRate :=
  {| rate_date := py "2025-08-26";
     listings := [ {| name := py "Double Room"; price := 165%N :: py "10,000" |};
                   {| name := py "Standard Room"; price := py "Sold Out" |} ] |}.

Definition three_with_stranger : DailyRate :=
  {| rate_date := py "2025-08-26";
     listings := [ {| name := py "Double Room"; price := 165%N :: py "10,000" |};
                   {| name := py "Standard Room"; price := py "Sold Out" |};
                   {| name := py "Family Room"; price := 165%N :: py "12,000" |} ] |}.

Definition fresh_state : Pricing.RunState :=
  {| Pricing.tick := 0;
     Pricing.session_manager := fst (Session.init (const_env (page [])) 0);
     Pricing.all_daily_rates := []; Pricing.log := [] |}.

(** A library that parses every input to the same list of room names. *)
Definition rooms_lib : Lib :=
  {| json_loads := fun _ =>
       Some (JArray [JString (py "Twin Room"); JString (py "Double Room");
                     JString (py "Twin Room"); JNull]);
     model_validate := fun _ => None;
     strftime := iso_strftime;
     repr_dict := fun _ => [] |}.

(** ** Vocabulary of the statements about the salvage parser *)

Definition no_brace (s : pystr) : Prop := (lbrace ∉ s) ∧ (rbrace ∉ s).

(** The number of occurrences of a character. *)
Definition count (c : N) (s : pystr) : nat :=
  length (filter (fun x => x = c) s).

(** The number of backslashes a text ends with. *)
Fixpoint trailing_backslashes_rev (r : pystr) : nat :=
  match r with
  | c :: r' => if (c =? backslash)%N then S (trailing_backslashes_rev r') else 0%nat
  | [] => 0%nat
  end.

Definition trailing_backslashes (s : pystr) : nat :=
  trailing_backslashes_rev (rev s).

(** The number of unescaped double quotes of a text: those that follow an
    even number of backslashes in a row (none included). *)
Fixpoint unescaped_quotes_rev (r : pystr) : nat :=
  match r with
  | c :: r' =>
      ((if (c =? quote)%N && Nat.even (trailing_backslashes_rev r')
        then 1 else 0) + unescaped_quotes_rev r')%nat
  | [] => 0%nat
  end.

Definition unescaped_quotes (s : pystr) : nat :=
  unescaped_quotes_rev (rev s).

(** The depth at the end of a text: the braces opened less the braces
    closed, counting the braces outside string literals only, those that
    follow an even number of unescaped double quotes. *)
Fixpoint brace_depth_rev (r : pystr) : Z :=
  match r with
  | c :: r' =>
      brace_depth_rev r'
      + (if Nat.even (unescaped_quotes_rev r')
         then (if (c =? lbrace)%N then 1 else if (c =? rbrace)%N then -1 else 0)
         else 0)
  | [] => 0
  end.

Definition brace_depth (s : pystr) : Z := brace_depth_rev (rev s).

(** The depth is at least one after every character of the text: what is
    opened at its start is open throughout. *)
Fixpoint stays_open_rev (r : pystr) : bool :=
  match r with
  | _ :: r' => (1 <=? brace_depth_rev r) && stays_open_rev r'
  | [] => true
  end.

Definition stays_open (s : pystr) : bool := stays_open_rev (rev s).

(** ** More of the two scripts *)

(** *** [human_like_delay] (scraper.py, lines 401-416)

    Durations are exact rationals: 0.1 is one
    tenth. *)

Module Delay.

(** [random.random()]: a multiple of [2^-53] in [0, 1). *)
Definition random_unit (E : Env) (t : nat) : Q :=
  (inject_Z (random_raw E t mod 2 ^ 53) / inject_Z (2 ^ 53))%Q.

(** [random.uniform(a, b)] *)
Definition uniform (E : Env) (t : nat) (a b : Q) : Q :=
  (a + (b - a) * random_unit E t)%Q.

Definition thinking_delays : list Q :=
  [(1 # 10)%Q; (3 # 10)%Q; (1 # 2)%Q; (4 # 5)%Q].

(** The [for _ in range(k)] loop of micro-delays: one draw and one sleep per
    turn. *)
Fixpoint thinking (E : Env) (t : nat) (k : nat) : list Q :=
  match k with
  | O => []
  | S k' => random_choice E t thinking_delays 0%Q :: thinking E (S t) k'
  end.

(** The durations passed to [asyncio.sleep], in order, and the tick after
    the call. *)
Definition human_like_delay (E : Env) (t : nat) (min_seconds max_seconds : Q)
  : list Q * nat :=
  let base_delay := uniform E t min_seconds max_seconds in
  let longer := Qlt_le_dec (random_unit E (t + 1)) (1 # 10)%Q in
  let base_delay :=
    if longer then (base_delay + uniform E (t + 2) 5 15)%Q else base_delay in
  let t := if longer then (t + 3)%nat else (t + 2)%nat in
  let k := Z.to_nat (randint E t 1 3) in
  (thinking E (S t) k ++ [base_delay], (S t + k)%nat).

Definition total (l : list Q) : Q := fold_right Qplus 0%Q l.

End Delay.

(** *** The statistics printed by [scrape_hotel_prices] (scraper.py, lines
    797-803 and 854-867) *)

Module Summary.

(** [p not in ["Not Listed", "Price Not Available", "Sold Out"]] *)
Definition is_price (p : pystr) : bool :=
  negb (bool_decide (p ∈ [py "Not Listed"; py "Price Not Available";
                          py "Sold Out"])).

Definition with_prices (v : DailyRate) : Z :=
  len (filter (fun l => is_price (price l) = true) (listings v)).

Definition sold_out (v : DailyRate) : Z :=
  len (filter (fun l => price l = py "Sold Out") (listings v)).

Definition not_listed (v : DailyRate) : Z :=
  len (filter (fun l => price l = py "Not Listed") (listings v)).

(** Lines 855-860: the prices seen for each room name, in order. *)
Definition add_listing (room_prices : gmap pystr (list pystr))
    (listing : RoomListing) : gmap pystr (list pystr) :=
  let room_prices :=
    match room_prices !! name listing with
    | None => <[name listing := []]> room_prices
    | Some _ => room_prices
    end in
  <[name listing := default [] (room_prices !! name listing) ++ [price listing]]>
    room_prices.

Definition room_prices (all_daily_rates : list DailyRate)
  : gmap pystr (list pystr) :=
  foldl (fun m daily_rate => foldl add_listing m (listings daily_rate))
        ∅ all_daily_rates.

(** Lines 862-867: the lines of the availability summary, as triples of the
    room name, the number of priced entries and the number of entries. *)
Definition availability (room_types : list pystr)
    (all_daily_rates : list DailyRate) : list (pystr * Z * Z) :=
  let room_prices := room_prices all_daily_rates in
  omap (fun room_name =>
          match room_prices !! room_name with
          | Some prices =>
              Some (room_name,
                    len (filter (fun p => is_price p = true) prices),
                    len prices)
          | None => None
          end) room_types.

(** All listings of a run, and the prices listed under one name. *)
Definition all_listings (rates : list DailyRate) : list RoomListing :=
  concat (map listings rates).

Definition prices_of (room : pystr) (ls : list RoomListing) : list pystr :=
  map price (filter (fun l => name l = room) ls).

End Summary.

(** *** Vocabulary of further statements about the two loops *)

Module Loops.
Import Session.

(** The rate a response contributes to a pricing run, if any: the response
    is usable, is not taken for a CAPTCHA page, parses to an object and
    validates. *)
Definition validated_rate (L : Lib) (r : CrawlResult) : option DailyRate :=
  match usable_content r with
  | Some content =>
      if Pricing.has_captcha content then None
      else match json_loads L (Pricing.to_parse content) with
           | Some (JObject members) => model_validate L (JObject members)
           | _ => None
           end
  | None => None
  end.

(** An effect that reports a turn without a rate. *)
Definition reports_failure (e : Pricing.Event) : Prop :=
  match e with
  | Pricing.EvWriteFile _ _ | Pricing.EvUnexpectedFormat
  | Pricing.EvParseFailed | Pricing.EvScrapeFailed => True
  | _ => False
  end.

(** What precedes the crawl of the [idx]-th date: the delay between requests
    or, for the first date, the warm-up. *)
Definition gap (idx : Z) : list Pricing.Event :=
  (if idx >? 1 then [Pricing.EvDelay 8 20] else [])
  ++ (if idx =? 1 then [Pricing.EvWarmUp] else []).

(** An effect that is neither a crawl, nor the warm-up, nor the delay
    between requests. *)
Definition quiet (e : Pricing.Event) : Prop :=
  match e with
  | Pricing.EvCrawl _ _ _ _ | Pricing.EvWarmUp => False
  | Pricing.EvDelay lo hi => (lo, hi) ≠ (8, 20)
  | _ => True
  end.

(** The effects of one turn of the pricing loop. *)
Definition turn (p : Z * Pricing.UrlDate) (seg : list Pricing.Event) : Prop :=
  ∃ rot ua vp post,
    seg = rot ++ gap (fst p)
              ++ [Pricing.EvCrawl (fst p) (Pricing.url (snd p)) ua vp] ++ post
    ∧ (rot = [] ∨ rot = [Pricing.EvRotate])
    ∧ Forall quiet post.

(** The state in which [scrape_hotel_prices] enters its loop. *)
Definition entry_state (E : Env) : Pricing.RunState :=
  {| Pricing.tick := snd (init E 0);
     Pricing.session_manager := fst (init E 0);
     Pricing.all_daily_rates := [];
     Pricing.log := [] |}.

(** The state after the first [j] dates of a plan. *)
Definition after_turns (L : Lib) (E : Env) (profile : HotelProfile)
    (urls : list Pricing.UrlDate) (j : nat) : Pricing.RunState :=
  foldl (fun s '(idx, item) => Pricing.scrape_one L E profile idx item s)
        (entry_state E) (take j (enumerate 1 urls)).

(** The room names announced as new by a discovery run, in order. *)
Definition announced (l : list Discovery.Event) : list pystr :=
  concat (omap (fun e => match e with
                         | Discovery.EvNewRooms rooms => Some rooms
                         | _ => None
                         end) l).

(** The rooms announced so far are the rooms discovered so far, each
    announced once. *)
Definition announced_ok (s : Discovery.LoopState) : Prop :=
  NoDup (announced (Discovery.log s))
  ∧ ∀ x, x ∈ announced (Discovery.log s) ↔ x ∈ Discovery.discovered_rooms s.

End Loops.

(** * Proofs *)

(** ** Lists, slices and [strip] *)

Lemma len_app {A} (a b : list A) : len (a ++ b) = len a + len b.
Proof. unfold len. rewrite length_app. lia. Qed.

Lemma len_nonneg {A} (a : list A) : 0 <= len a.
Proof. unfold len. lia. Qed.

Lemma len_cons {A} (x : A) (a : list A) : len (x :: a) = len a + 1.
Proof. unfold len. simpl. lia. Qed.

Lemma slice_middle {A} (a b c : list A) :
  slice (a ++ b ++ c) (len a) (len a + len b) = b.
Proof.
  unfold slice, norm_index.
  pose proof (len_nonneg a). pose proof (len_nonneg b). pose proof (len_nonneg c).
  rewrite !len_app.
  destruct (Z.ltb_spec (len a) 0); [lia|].
  destruct (Z.ltb_spec (len a + len b) 0); [lia|].
  rewrite !Z.min_l by lia.
  replace (Z.to_nat (len a)) with (length a) by (unfold len; lia).
  replace (Z.to_nat (len a + len b - len a)) with (length b) by (unfold len; lia).
  rewrite drop_app_length. apply take_app_length.
Qed.

Lemma slice_inside {A} (s : list A) (lo hi : Z) :
  0 <= lo -> lo <= hi -> hi <= len s ->
  slice s lo hi = take (Z.to_nat (hi - lo)) (drop (Z.to_nat lo) s).
Proof.
  intros. unfold slice, norm_index.
  destruct (Z.ltb_spec lo 0); [lia|].
  destruct (Z.ltb_spec hi 0); [lia|].
  rewrite !Z.min_l by lia. reflexivity.
Qed.

Lemma slice_shift {A} (a s : list A) (lo hi : Z) :
  0 <= lo -> lo <= hi -> hi <= len s ->
  slice (a ++ s) (lo + len a) (hi + len a) = slice s lo hi.
Proof.
  intros. pose proof (len_nonneg a).
  rewrite !slice_inside by (rewrite ?len_app; lia).
  replace (Z.to_nat (lo + len a)) with (length a + Z.to_nat lo)%nat
    by (unfold len; lia).
  rewrite <- drop_drop, drop_app_length.
  f_equal. lia.
Qed.

Lemma lstrip_split (s : pystr) :
  ∃ ws, s = ws ++ lstrip s ∧ Forall (fun c => is_space c = true) ws.
Proof.
  induction s as [|c s IH]; simpl.
  - exists []. split; [reflexivity | constructor].
  - destruct (is_space c) eqn:Hc.
    + destruct IH as (ws & Hs & Hws). exists (c :: ws). split.
      * simpl. congruence.
      * constructor; assumption.
    + exists []. split; [reflexivity | constructor].
Qed.

Lemma lstrip_app_stop (p r : pystr) (x : N) :
  is_space x = false -> lstrip (p ++ x :: r) = lstrip p ++ x :: r.
Proof.
  intros Hx. induction p as [|c p IH]; simpl.
  - rewrite Hx. reflexivity.
  - destruct (is_space c); [exact IH | reflexivity].
Qed.

Lemma rstrip_app_stop (a q : pystr) (x : N) :
  is_space x = false -> rstrip (a ++ x :: q) = a ++ x :: rstrip q.
Proof.
  intros Hx. unfold rstrip.
  rewrite rev_app_distr. simpl. rewrite <- app_assoc. simpl.
  rewrite lstrip_app_stop by assumption.
  rewrite rev_app_distr. simpl. rewrite rev_involutive, <- app_assoc.
  reflexivity.
Qed.

Lemma rstrip_prefix (s : pystr) : ∃ ws, s = rstrip s ++ ws.
Proof.
  unfold rstrip. destruct (lstrip_split (rev s)) as (ws & Hs & _).
  exists (rev ws). rewrite <- rev_app_distr, <- Hs, rev_involutive.
  reflexivity.
Qed.

Lemma elem_of_lstrip (x : N) (s : pystr) : x ∈ lstrip s -> x ∈ s.
Proof.
  destruct (lstrip_split s) as (ws & Hs & _). intros Hx.
  rewrite Hs. apply elem_of_app. right. assumption.
Qed.

Lemma elem_of_strip (x : N) (s : pystr) : x ∈ strip s -> x ∈ s.
Proof.
  unfold strip. intros Hx. apply elem_of_lstrip in Hx.
  destruct (rstrip_prefix s) as (ws & Hs). rewrite Hs.
  apply elem_of_app. left. assumption.
Qed.

Lemma space_not_special (c : N) :
  is_space c = true -> c ≠ lbrace ∧ c ≠ rbrace ∧ c ≠ quote ∧ c ≠ backslash.
Proof.
  intros Hc. repeat split; intros ->; vm_compute in Hc; discriminate.
Qed.

Lemma strip_around (p m q : pystr) :
  strip (p ++ lbrace :: m ++ rbrace :: q)
  = lstrip p ++ lbrace :: m ++ rbrace :: rstrip q.
Proof.
  unfold strip.
  replace (p ++ lbrace :: m ++ rbrace :: q)
    with ((p ++ lbrace :: m) ++ rbrace :: q)
    by (rewrite <- app_assoc; reflexivity).
  rewrite rstrip_app_stop by reflexivity.
  rewrite <- app_assoc. simpl.
  apply lstrip_app_stop. reflexivity.
Qed.

(** ** The scanner *)

Section Scanner.
Import Salvage.

Lemma run_app (l1 l2 : pystr) : ∀ i st,
  run i (l1 ++ l2) st =
  match run i l1 st with
  | Return lo hi => Return lo hi
  | Continue st' => run (i + len l1) l2 st'
  end.
Proof.
  induction l1 as [|c l1 IH]; intros i st; simpl.
  - f_equal. unfold len. simpl. lia.
  - destruct (step i c st); [|reflexivity].
    rewrite IH. rewrite len_cons.
    replace (i + 1 + len l1) with (i + (len l1 + 1)) by lia. reflexivity.
Qed.

Lemma neqb (a b : N) : a ≠ b -> (a =? b)%N = false.
Proof. apply N.eqb_neq. Qed.

(** The cases of the loop body, one lemma each. *)
Lemma step_lbrace (i s0 bc : Z) (esc : bool) :
  step i lbrace (ScanState s0 bc false esc)
  = Continue (ScanState (if bc =? 0 then i else s0) (bc + 1) false false).
Proof. reflexivity. Qed.

Lemma step_rbrace_inner (i s0 bc : Z) (esc : bool) :
  1 < bc ->
  step i rbrace (ScanState s0 bc false esc)
  = Continue (ScanState s0 (bc - 1) false false).
Proof.
  intros Hbc. unfold step. simpl.
  destruct (Z.gtb_spec bc 0); [|lia].
  destruct (Z.eqb_spec (bc - 1) 0); [lia|]. reflexivity.
Qed.

Lemma step_rbrace_close (i s0 : Z) (esc : bool) :
  s0 ≠ -1 ->
  step i rbrace (ScanState s0 1 false esc) = Return s0 (i + 1).
Proof.
  intros Hs. unfold step. simpl.
  destruct (Z.eqb_spec s0 (-1)); [contradiction|]. reflexivity.
Qed.

Lemma step_rbrace_stray (i s0 : Z) (esc : bool) :
  step i rbrace (ScanState s0 0 false esc) = Continue (ScanState s0 0 false false).
Proof. reflexivity. Qed.

(** A character that is neither [{], a quote nor a backslash leaves the
    variables alone outside an object, and so does a stray [}]. *)
Lemma step_inert (i : Z) (c : N) (s0 : Z) :
  c ≠ lbrace -> c ≠ quote -> c ≠ backslash ->
  step i c (ScanState s0 0 false false) = Continue (ScanState s0 0 false false).
Proof.
  intros H1 H2 H3. unfold step. simpl.
  rewrite (neqb _ _ H1), (neqb _ _ H2), (neqb _ _ H3).
  simpl. destruct (c =? rbrace)%N; reflexivity.
Qed.

#[local] Arguments step : simpl never.

Lemma run_cons (i : Z) (c : N) (l : pystr) (st : scan_state) :
  run i (c :: l) st =
  match step i c st with
  | Return lo hi => Return lo hi
  | Continue st' => run (i + 1) l st'
  end.
Proof. reflexivity. Qed.

Lemma run_inert (ws l : pystr) : ∀ i s0,
  Forall (fun c => c ≠ lbrace ∧ c ≠ quote ∧ c ≠ backslash) ws ->
  run i (ws ++ l) (ScanState s0 0 false false)
  = run (i + len ws) l (ScanState s0 0 false false).
Proof.
  induction ws as [|c ws IH]; intros i s0 Hws.
  - simpl. f_equal. unfold len. simpl. lia.
  - inversion Hws as [|? ? (H1 & H2 & H3) Hws']; subst.
    rewrite <- app_comm_cons, run_cons, step_inert by assumption.
    rewrite IH by assumption. f_equal. rewrite len_cons. lia.
Qed.

Lemma no_brace_lstrip (p : pystr) : no_brace p -> no_brace (lstrip p).
Proof.
  intros [Hl Hr]. split; intros Hin; [apply Hl|apply Hr];
    apply elem_of_lstrip; assumption.
Qed.

Lemma run_prefix_continue (l r : pystr) (i : Z) (st st' : scan_state) :
  run i (l ++ r) st = Continue st' -> ∃ st1, run i l st = Continue st1.
Proof.
  rewrite run_app. destruct (run i l st); [eauto | discriminate].
Qed.

Lemma extract_nonempty (text : pystr) :
  text ≠ [] ->
  extract_first_json_object text =
  match run 0 (strip text) init_state with
  | Return lo hi => Some (slice (strip text) lo hi)
  | Continue _ => None
  end.
Proof. destruct text; [contradiction | reflexivity]. Qed.

Ltac no_brace_tac :=
  split; intros Hin; apply list_elem_of_In in Hin; vm_compute in Hin;
  intuition discriminate.

(** *** String and escape state *)

Ltac step_cases :=
  unfold step; simpl;
  repeat match goal with
  | |- context [(?a =? ?b)%N] => destruct (N.eqb_spec a b); subst; simpl
  | |- context [?a =? ?b] => destruct (Z.eqb_spec a b); simpl
  | |- context [?a >? ?b] => destruct (Z.gtb_spec a b); simpl
  | |- context [if ?b then _ else _] => destruct b; simpl
  end.

Lemma step_flags (i : Z) (c : N) (st st' : scan_state) :
  step i c st = Continue st' ->
  in_string st' = (if (c =? quote)%N && negb (escape st)
                   then negb (in_string st) else in_string st)
  ∧ escape st' = (c =? backslash)%N && negb (escape st)
  ∧ (in_string st = true ->
     brace_count st' = brace_count st ∧ start st' = start st).
Proof.
  destruct st as [s0 bc ins esc]. revert st'.
  step_cases; intros st' Heq; try discriminate;
    injection Heq as <-; simpl; repeat split; congruence.
Qed.

Lemma step_return (i : Z) (c : N) (st : scan_state) (lo hi : Z) :
  step i c st = Return lo hi ->
  c = rbrace ∧ in_string st = false ∧ brace_count st = 1
  ∧ lo = start st ∧ hi = i + 1.
Proof.
  destruct st as [s0 bc ins esc].
  step_cases; intros Heq; try discriminate;
    injection Heq as <- <-; repeat split; try reflexivity; lia.
Qed.

Lemma trailing_backslashes_snoc (p : pystr) (c : N) :
  trailing_backslashes (p ++ [c])
  = if (c =? backslash)%N then S (trailing_backslashes p) else 0%nat.
Proof.
  unfold trailing_backslashes. rewrite rev_app_distr. reflexivity.
Qed.

Lemma run_snoc (p : pystr) (c : N) (i : Z) (st : scan_state) :
  run i (p ++ [c]) st =
  match run i p st with
  | Return lo hi => Return lo hi
  | Continue st' => step (i + len p) c st'
  end.
Proof.
  rewrite run_app. destruct (run i p st) as [st'|]; [|reflexivity].
  rewrite run_cons. destruct (step (i + len p) c st'); reflexivity.
Qed.

Lemma escape_after (p : pystr) : ∀ st,
  run 0 p init_state = Continue st ->
  escape st = Nat.odd (trailing_backslashes p).
Proof.
  induction p as [|c p IH] using rev_ind; intros st Hrun.
  - injection Hrun as <-. reflexivity.
  - rewrite run_snoc in Hrun.
    destruct (run 0 p init_state) as [st0|] eqn:Hp; [|discriminate].
    apply step_flags in Hrun as (_ & He & _).
    rewrite He, (IH st0 eq_refl), trailing_backslashes_snoc.
    destruct (c =? backslash)%N; simpl andb; [|reflexivity].
    rewrite Nat.odd_succ, Nat.negb_odd. reflexivity.
Qed.

(** C2. While scanning, the parser tracks string and escape state. When the
    scan has read the text [p] and reads the character [c] next: the escape
    flag is set exactly when [p] ends with an odd number of backslashes,
    that is when [c] is immediately preceded by an unescaped backslash; a
    double quote toggles the in-string flag unless it is so preceded, and no
    other character changes it; a backslash that is not itself escaped
    escapes exactly the next character; and inside a string no character, a
    brace included, changes the depth or the recorded start or ends the
    scan (the function returns only on a closing brace outside a string). *)
Theorem C2_string_and_escape_state (p : pystr) (c : N) (st : scan_state) :
  run 0 p init_state = Continue st ->
  escape st = Nat.odd (trailing_backslashes p)
  ∧ match step (len p) c st with
    | Continue st' =>
        in_string st' = (if (c =? quote)%N && negb (escape st)
                         then negb (in_string st) else in_string st)
        ∧ escape st' = (c =? backslash)%N && negb (escape st)
        ∧ (in_string st = true ->
           brace_count st' = brace_count st ∧ start st' = start st)
    | Return _ _ => c = rbrace ∧ in_string st = false
    end.
Proof.
  intros Hrun. split; [apply escape_after; assumption|].
  destruct (step (len p) c st) as [st'|lo hi] eqn:Hstep.
  - apply step_flags in Hstep. exact Hstep.
  - apply step_return in Hstep as (? & ? & _). split; assumption.
Qed.

(** After an opening brace, a quoted key, a colon, an opening quote and a
    backslash, the next character is escaped: a quote there does not close
    the string, and the depth stays 1. *)
Lemma C2_string_and_escape_state_witness :
  let p := lbrace :: quote :: py "k" ++ quote :: py ":" ++ [quote; backslash] in
  let st := ScanState 0 1 true true in
  escape st = Nat.odd (trailing_backslashes p)
  ∧ match step (len p) quote st with
    | Continue st' =>
        in_string st' = (if (quote =? quote)%N && negb (escape st)
                         then negb (in_string st) else in_string st)
        ∧ escape st' = (quote =? backslash)%N && negb (escape st)
        ∧ (in_string st = true ->
           brace_count st' = brace_count st ∧ start st' = start st)
    | Return _ _ => quote = rbrace ∧ in_string st = false
    end.
Proof.
  intros p st. apply (C2_string_and_escape_state p quote st).
  vm_compute. reflexivity.
Defined.

(** *** The first object of a text *)

Lemma unescaped_quotes_snoc (p : pystr) (c : N) :
  unescaped_quotes (p ++ [c])
  = ((if (c =? quote)%N && Nat.even (trailing_backslashes p)
      then 1 else 0) + unescaped_quotes p)%nat.
Proof.
  unfold unescaped_quotes, trailing_backslashes. rewrite rev_app_distr.
  reflexivity.
Qed.

Lemma brace_depth_snoc (p : pystr) (c : N) :
  brace_depth (p ++ [c])
  = brace_depth p
    + (if Nat.even (unescaped_quotes p)
       then (if (c =? lbrace)%N then 1 else if (c =? rbrace)%N then -1 else 0)
       else 0).
Proof.
  unfold brace_depth, unescaped_quotes. rewrite rev_app_distr. reflexivity.
Qed.

Lemma stays_open_snoc (x : pystr) (c : N) :
  stays_open (x ++ [c]) = (1 <=? brace_depth (x ++ [c])) && stays_open x.
Proof.
  unfold stays_open, brace_depth. rewrite rev_app_distr. reflexivity.
Qed.

Lemma stays_open_prefix (x y : pystr) :
  stays_open (x ++ y) = true -> stays_open x = true.
Proof.
  induction y as [|c y IH] using rev_ind.
  - rewrite app_nil_r. auto.
  - rewrite app_assoc, stays_open_snoc. intros H.
    apply andb_true_iff in H as [_ H]. auto.
Qed.

(** What [stays_open] says: the depth is at least one after every
    character of the text. *)
Lemma stays_open_spec (x : pystr) :
  stays_open x = true
  ↔ ∀ k, (1 <= k <= length x)%nat -> 1 <= brace_depth (take k x).
Proof.
  induction x as [|c x IH] using rev_ind.
  - split; [intros _ k Hk; simpl in Hk; lia | reflexivity].
  - rewrite stays_open_snoc, andb_true_iff, Z.leb_le, IH. split.
    + intros [Hlast Hpre] k Hk. rewrite length_app in Hk. simpl in Hk.
      destruct (decide (k = length x + 1)%nat) as [->|Hne].
      * rewrite firstn_all2 by (rewrite length_app; simpl; lia). exact Hlast.
      * rewrite take_app_le by lia. apply Hpre. lia.
    + intros H. split.
      * specialize (H (length (x ++ [c]))).
        rewrite firstn_all in H. apply H. rewrite length_app. simpl. lia.
      * intros k Hk. specialize (H k). rewrite take_app_le in H by lia.
        apply H. rewrite length_app. simpl. lia.
Qed.

(** The loop body on a character that is not a brace, outside an object. *)
Lemma step_prose (i : Z) (c : N) (s0 : Z) (ins esc : bool) :
  c ≠ lbrace -> c ≠ rbrace ->
  step i c (ScanState s0 0 ins esc)
  = Continue (ScanState s0 0
                (if (c =? quote)%N && negb esc then negb ins else ins)
                ((c =? backslash)%N && negb esc)).
Proof.
  intros Hl Hr. unfold step. simpl.
  rewrite (neqb _ _ Hl), (neqb _ _ Hr).
  destruct (c =? backslash)%N eqn:Hb, esc; simpl;
    try reflexivity;
    try (apply N.eqb_eq in Hb; subst c; simpl; destruct ins; reflexivity);
    destruct (c =? quote)%N, ins; reflexivity.
Qed.

(** The loop body inside an object that the character does not close. *)
Lemma step_open (i : Z) (c : N) (s0 bc : Z) (ins esc : bool) :
  let bc' := bc + (if negb ins
                   then (if (c =? lbrace)%N then 1
                         else if (c =? rbrace)%N then -1 else 0)
                   else 0) in
  1 <= bc -> 1 <= bc' ->
  step i c (ScanState s0 bc ins esc)
  = Continue (ScanState s0 bc'
                (if (c =? quote)%N && negb esc then negb ins else ins)
                ((c =? backslash)%N && negb esc)).
Proof.
  intros bc' Hbc Hbc'. subst bc'. unfold step. simpl.
  destruct (N.eqb_spec c backslash) as [->|Hb].
  { destruct esc, ins; simpl; repeat f_equal; lia. }
  destruct (N.eqb_spec c quote) as [->|Hq].
  { destruct esc, ins; simpl; repeat f_equal; lia. }
  simpl. destruct ins; simpl in *; [repeat f_equal; lia|].
  destruct (N.eqb_spec c lbrace) as [->|Hl].
  { destruct (Z.eqb_spec bc 0); [lia|]. reflexivity. }
  destruct (N.eqb_spec c rbrace) as [->|Hr].
  { destruct (Z.gtb_spec bc 0); [|lia].
    destruct (Z.eqb_spec (bc - 1) 0); [lia|]. simpl.
    repeat f_equal. }
  repeat f_equal; lia.
Qed.

Lemma odd_add_bit (b : bool) (n : nat) :
  Nat.odd ((if b then 1 else 0) + n) = if b then negb (Nat.odd n) else Nat.odd n.
Proof.
  destruct b; [|reflexivity].
  change (1 + n)%nat with (S n). rewrite Nat.odd_succ, <- Nat.negb_odd.
  reflexivity.
Qed.

Lemma odd_trailing_snoc (p : pystr) (c : N) :
  Nat.odd (trailing_backslashes (p ++ [c]))
  = (c =? backslash)%N && negb (Nat.odd (trailing_backslashes p)).
Proof.
  rewrite trailing_backslashes_snoc. destruct (c =? backslash)%N; simpl.
  - rewrite Nat.odd_succ, <- Nat.negb_odd. reflexivity.
  - reflexivity.
Qed.

(** Over prose without braces the scan keeps track of the unescaped quotes
    and of the backslashes, and of nothing else. *)
Lemma run_prose (p : pystr) (i s0 : Z) :
  no_brace p ->
  run i p (ScanState s0 0 false false)
  = Continue (ScanState s0 0 (Nat.odd (unescaped_quotes p))
                (Nat.odd (trailing_backslashes p))).
Proof.
  induction p as [|c p IH] using rev_ind; intros [Hl Hr]; [reflexivity|].
  rewrite run_snoc, IH.
  - rewrite step_prose.
    + rewrite unescaped_quotes_snoc, odd_add_bit, odd_trailing_snoc.
      rewrite Nat.negb_odd. reflexivity.
    + intros ->. apply Hl. apply elem_of_app. right. left.
    + intros ->. apply Hr. apply elem_of_app. right. left.
  - split; intros Hin; [apply Hl | apply Hr]; apply elem_of_app; left;
      assumption.
Qed.

(** From an opening brace on, while the object stays open, the scan keeps
    track of the depth as well; the opening brace is where [start] points. *)
Lemma run_open (w : pystr) (i s0 : Z) (esc : bool) :
  stays_open (lbrace :: w) = true ->
  run i (lbrace :: w) (ScanState s0 0 false esc)
  = Continue (ScanState i (brace_depth (lbrace :: w))
                (Nat.odd (unescaped_quotes (lbrace :: w)))
                (Nat.odd (trailing_backslashes (lbrace :: w)))).
Proof.
  induction w as [|c w IH] using rev_ind; intros Hopen.
  - rewrite run_cons, step_lbrace. reflexivity.
  - rewrite app_comm_cons in Hopen |- *.
    rewrite stays_open_snoc in Hopen.
    apply andb_true_iff in Hopen as [Hlast Hpre]. apply Z.leb_le in Hlast.
    pose proof (proj1 (stays_open_spec _) Hpre) as Hdepth.
    specialize (Hdepth (length (lbrace :: w))).
    rewrite firstn_all in Hdepth. specialize (Hdepth ltac:(simpl; lia)).
    rewrite run_snoc, IH by assumption.
    rewrite brace_depth_snoc in Hlast |- *.
    rewrite unescaped_quotes_snoc, odd_add_bit, odd_trailing_snoc.
    rewrite <- !Nat.negb_odd in *.
    rewrite step_open by assumption. reflexivity.
Qed.

Lemma lstrip_quotes (p : pystr) :
  no_brace p ->
  Nat.odd (unescaped_quotes (lstrip p)) = Nat.odd (unescaped_quotes p).
Proof.
  intros Hnb. destruct (lstrip_split p) as (ws & Hp & Hws).
  pose proof (run_prose p 0 (-1) Hnb) as H1.
  rewrite Hp in H1 at 1. rewrite run_inert in H1.
  - rewrite run_prose in H1 by (apply no_brace_lstrip; assumption).
    injection H1 as H1 _. exact H1.
  - eapply Forall_impl; [exact Hws|]. intros c Hc.
    destruct (space_not_special c Hc) as (? & ? & ? & ?). auto.
Qed.

(** The scan up to the first opening brace that follows prose without
    braces and with its quotes paired. *)
Lemma run_to_object (p rest : pystr) :
  no_brace p -> Nat.even (unescaped_quotes p) = true ->
  run 0 (lstrip p ++ lbrace :: rest) init_state
  = run (len (lstrip p)) (lbrace :: rest)
      (ScanState (-1) 0 false (Nat.odd (trailing_backslashes (lstrip p)))).
Proof.
  intros Hnb Hq. unfold init_state.
  rewrite run_app, run_prose by (apply no_brace_lstrip; assumption).
  rewrite lstrip_quotes by assumption.
  rewrite <- Nat.negb_even, Hq. reflexivity.
Qed.

(** C1 (as amended). Let the prose [p] have no brace and an even number of
    unescaped double quotes, a character being escaped when it follows an
    odd number of backslashes in a row. If the object that follows [p] is
    balanced (outside its string literals the depth is at least one after
    each of its characters but the last, which brings it to zero), the
    salvage parser returns exactly that object, whatever text follows it.
    If the opening brace that follows [p] is never closed (the depth is at
    least one after every character to the end of the text), it returns
    none. *)
Theorem C1_salvage_first_object (p b q w : pystr) :
  no_brace p ->
  Nat.even (unescaped_quotes p) = true ->
  stays_open (lbrace :: b) = true ->
  brace_depth (lbrace :: b ++ [rbrace]) = 0 ->
  stays_open (lbrace :: w) = true ->
  extract_first_json_object (p ++ lbrace :: b ++ rbrace :: q)
    = Some (lbrace :: b ++ [rbrace])
  ∧ extract_first_json_object (p ++ lbrace :: w) = None.
Proof.
  intros Hnb Hq Hb Hclose Hw. split.
  - rewrite extract_nonempty by (destruct p; discriminate).
    rewrite strip_around, run_to_object by assumption.
    replace (lbrace :: b ++ rbrace :: rstrip q)
      with ((lbrace :: b) ++ rbrace :: rstrip q) by reflexivity.
    rewrite run_app, run_open by assumption.
    (* the last character closes the object *)
    pose proof (proj1 (stays_open_spec _) Hb) as Hdepth.
    specialize (Hdepth (length (lbrace :: b))).
    rewrite firstn_all in Hdepth. specialize (Hdepth ltac:(simpl; lia)).
    rewrite app_comm_cons, brace_depth_snoc in Hclose.
    rewrite <- Nat.negb_odd in Hclose.
    destruct (Nat.odd (unescaped_quotes (lbrace :: b))); simpl in Hclose;
      [lia|].
    replace (brace_depth (lbrace :: b)) with 1 by lia.
    pose proof (len_nonneg (lstrip p)).
    rewrite run_cons, step_rbrace_close by lia.
    f_equal.
    replace ((lbrace :: b) ++ rbrace :: rstrip q)
      with ((lbrace :: b ++ [rbrace]) ++ rstrip q)
      by (simpl; rewrite <- app_assoc; reflexivity).
    replace (len (lstrip p) + len (lbrace :: b) + 1)
      with (len (lstrip p) + len (lbrace :: b ++ [rbrace]))
      by (rewrite !len_cons, len_app; change (len [rbrace]) with 1; lia).
    apply slice_middle.
  - rewrite extract_nonempty by (destruct p; discriminate).
    unfold strip. rewrite rstrip_app_stop by reflexivity.
    rewrite lstrip_app_stop by reflexivity.
    rewrite run_to_object by assumption.
    destruct (rstrip_prefix w) as (ws & Hws).
    rewrite Hws, app_comm_cons in Hw. apply stays_open_prefix in Hw.
    rewrite run_open by assumption. reflexivity.
Qed.

(** A path with a backslash and a quoted word, then an object whose string
    holds a closing brace, then more text with a brace; and the same prose
    before an object that ends inside a string literal. *)
Lemma C1_salvage_first_object_witness :
  let p := py "C:\x said " ++ [quote] ++ py "ok" ++ [quote] ++ py ": " in
  let b := [quote] ++ py "k" ++ [quote] ++ py ":" ++ [quote] ++ py "}"
           ++ [quote] in
  extract_first_json_object (p ++ lbrace :: b ++ rbrace :: py " } done")
    = Some (lbrace :: b ++ [rbrace])
  ∧ extract_first_json_object (p ++ lbrace :: [quote] ++ py "a") = None.
Proof.
  intros p b. apply C1_salvage_first_object.
  - no_brace_tac.
  - reflexivity.
  - reflexivity.
  - reflexivity.
  - reflexivity.
Defined.

(** C1 as stated fails on both halves: prose without braces but with a lone
    double quote hides the balanced object that follows, and a text whose
    braces do not balance still yields its first balanced object. *)
Lemma C1_counterexample :
  (no_brace (py "say " ++ [quote] ++ py " ")
   ∧ stays_open [lbrace] = true ∧ brace_depth (py "{}") = 0
   ∧ extract_first_json_object ((py "say " ++ [quote] ++ py " ") ++ py "{}")
     = None)
  ∧ (count lbrace (py "{}{") ≠ count rbrace (py "{}{")
     ∧ extract_first_json_object (py "{}{") = Some (py "{}")).
Proof.
  split; [split; [|split; [|split]]|split].
  - no_brace_tac.
  - reflexivity.
  - reflexivity.
  - vm_compute. reflexivity.
  - vm_compute. discriminate.
  - vm_compute. reflexivity.
Qed.

(** *** Where the returned slice lies *)

Lemma step_start (i : Z) (c : N) (st st' : scan_state) :
  step i c st = Continue st' -> 0 < brace_count st' ->
  (0 < brace_count st ∧ start st' = start st) ∨ (c = lbrace ∧ start st' = i).
Proof.
  destruct st as [s0 bc ins esc]. revert st'.
  step_cases; intros st' Heq; try discriminate;
    injection Heq as <-; simpl; intros Hpos;
    first [left; split; [lia | reflexivity] | right; split; reflexivity].
Qed.

Lemma run_sound (l : pystr) : ∀ pre st lo hi,
  start_ok pre st ->
  run (len pre) l st = Return lo hi ->
  0 <= lo ∧ lo < hi ∧ hi <= len (pre ++ l)
  ∧ (pre ++ l) !! Z.to_nat lo = Some lbrace
  ∧ (pre ++ l) !! Z.to_nat (hi - 1) = Some rbrace.
Proof.
  induction l as [|c l IH]; intros pre st lo hi Hok Hrun; [discriminate|].
  rewrite run_cons in Hrun.
  destruct (step (len pre) c st) as [st'|lo' hi'] eqn:Hstep.
  - replace (pre ++ c :: l) with ((pre ++ [c]) ++ l)
      by (rewrite <- app_assoc; reflexivity).
    apply (IH (pre ++ [c]) st').
    + intros Hpos. rewrite len_app. change (len [c]) with 1.
      destruct (step_start _ _ _ _ Hstep Hpos) as [[Hpos0 ->]|[-> ->]].
      * destruct (Hok Hpos0) as [Hrange Hat]. split; [lia|].
        apply lookup_app_l_Some. assumption.
      * pose proof (len_nonneg pre). split; [lia|].
        replace (Z.to_nat (len pre)) with (length pre) by (unfold len; lia).
        apply list_lookup_middle. reflexivity.
    + rewrite len_app. exact Hrun.
  - injection Hrun as <- <-.
    apply step_return in Hstep as (-> & _ & Hbc & -> & ->).
    destruct Hok as [Hrange Hat]; [lia|].
    pose proof (len_nonneg l).
    rewrite len_app, len_cons.
    repeat split; try lia.
    + apply lookup_app_l_Some. assumption.
    + replace (Z.to_nat (len pre + 1 - 1)) with (length pre)
        by (unfold len; lia).
      apply list_lookup_middle. reflexivity.
Qed.

Lemma run_sound_init (s : pystr) (lo hi : Z) :
  run 0 s init_state = Return lo hi ->
  0 <= lo ∧ lo < hi ∧ hi <= len s
  ∧ s !! Z.to_nat lo = Some lbrace ∧ s !! Z.to_nat (hi - 1) = Some rbrace.
Proof.
  intros Hrun. apply (run_sound s [] init_state); [|exact Hrun].
  intros Hpos. simpl in Hpos. lia.
Qed.

(** The slice taken is a segment of the text with [{] first and [}] last. *)
Lemma slice_segment (s : pystr) (lo hi : Z) (x y : N) :
  0 <= lo -> lo < hi -> hi <= len s ->
  s !! Z.to_nat lo = Some x -> s !! Z.to_nat (hi - 1) = Some y ->
  ∃ pre post, s = pre ++ slice s lo hi ++ post
              ∧ head (slice s lo hi) = Some x
              ∧ last (slice s lo hi) = Some y.
Proof.
  intros Hlo Hlt Hhi Hx Hy.
  rewrite slice_inside by lia.
  exists (take (Z.to_nat lo) s),
         (drop (Z.to_nat (hi - lo)) (drop (Z.to_nat lo) s)).
  split; [|split].
  - rewrite take_drop, take_drop. reflexivity.
  - rewrite head_lookup, lookup_take_lt by lia.
    rewrite lookup_drop. rewrite Nat.add_0_r. assumption.
  - rewrite last_lookup, length_take, length_drop.
    assert (Hlen : (Z.to_nat (hi - lo) <= length s - Z.to_nat lo)%nat)
      by (unfold len in Hhi; lia).
    rewrite Nat.min_l by assumption.
    rewrite lookup_take_lt by lia. rewrite lookup_drop.
    replace (Z.to_nat lo + Init.Nat.pred (Z.to_nat (hi - lo)))%nat
      with (Z.to_nat (hi - 1)) by lia.
    assumption.
Qed.

(** *** Shifting the text to the right *)

Lemma step_shift (k i : Z) (c : N) (st st' : scan_state) :
  0 <= k -> 0 <= i -> shifted k st st' ->
  shifted_result k (step i c st) (step (i + k) c st').
Proof.
  intros Hk Hi.
  destruct st as [s0 bc ins esc], st' as [s0' bc' ins' esc'].
  intros (Hbc & Hins & Hesc & Hst). simpl in *. subst bc' ins' esc'.
  unfold shifted_result, shifted.
  step_cases; repeat split; try reflexivity; try lia; try (exfalso; lia);
    try (intros; lia).
Qed.

Lemma run_shift (k : Z) (l : pystr) : ∀ i st st',
  0 <= k -> 0 <= i -> shifted k st st' ->
  shifted_result k (run i l st) (run (i + k) l st').
Proof.
  induction l as [|c l IH]; intros i st st' Hk Hi Hsh; [exact Hsh|].
  rewrite !run_cons.
  pose proof (step_shift k i c st st' Hk Hi Hsh) as Hstep.
  destruct (step i c st) as [st1|lo hi], (step (i + k) c st') as [st1'|lo' hi'];
    simpl in Hstep; try contradiction.
  - replace (i + k + 1) with (i + 1 + k) by lia. apply IH; [lia|lia|assumption].
  - exact Hstep.
Qed.

(** *** Stray closing braces *)

Lemma shifted_init (k : Z) : shifted k init_state init_state.
Proof. repeat split; simpl in *; lia. Qed.

Lemma replicate_shift {A} (k : nat) (x : A) (l : list A) :
  replicate k x ++ x :: l = x :: replicate k x ++ l.
Proof.
  induction k as [|k IH]; simpl; [reflexivity|]. rewrite IH. reflexivity.
Qed.

Lemma strip_stray (k : nat) (t : pystr) :
  strip (replicate (S k) rbrace ++ t) = replicate (S k) rbrace ++ rstrip t.
Proof.
  unfold strip. simpl replicate.
  rewrite <- app_comm_cons, <- replicate_shift.
  rewrite rstrip_app_stop by reflexivity.
  rewrite replicate_shift. reflexivity.
Qed.

Lemma extract_stray (k : nat) (t : pystr) :
  extract_first_json_object (replicate k rbrace ++ t)
  = extract_first_json_object t.
Proof.
  destruct k as [|k]; [reflexivity|].
  rewrite extract_nonempty by discriminate.
  rewrite strip_stray.
  set (rep := replicate (S k) rbrace).
  assert (Hrep : Forall (fun c => c ≠ lbrace ∧ c ≠ quote ∧ c ≠ backslash) rep).
  { apply Forall_replicate. repeat split; discriminate. }
  destruct (lstrip_split (rstrip t)) as (ws & Hsplit & Hws).
  fold (strip t) in Hsplit.
  assert (Hws' : Forall (fun c => c ≠ lbrace ∧ c ≠ quote ∧ c ≠ backslash) ws).
  { eapply Forall_impl; [exact Hws|]. intros c Hc.
    apply space_not_special in Hc. tauto. }
  rewrite Hsplit. unfold init_state.
  rewrite run_inert by assumption. rewrite run_inert by assumption.
  fold init_state.
  pose proof (len_nonneg rep). pose proof (len_nonneg ws).
  pose proof (run_shift (len rep + len ws) (strip t) 0 init_state init_state
                ltac:(lia) ltac:(lia) (shifted_init _)) as Hsh.
  replace (0 + (len rep + len ws)) with (0 + len rep + len ws) in Hsh by lia.
  destruct t as [|c t]; [reflexivity|].
  rewrite (extract_nonempty (c :: t)) by discriminate.
  destruct (run 0 (strip (c :: t)) init_state) as [st|lo hi] eqn:Hrun,
    (run (0 + len rep + len ws) (strip (c :: t)) init_state) as [st'|lo' hi'];
    simpl in Hsh; try contradiction; [reflexivity|].
  destruct Hsh as [-> ->].
  apply run_sound_init in Hrun as (Hlo & Hlt & Hhi & _).
  f_equal. rewrite app_assoc, <- len_app.
  apply slice_shift; lia.
Qed.

(** C10. The empty text and any text without an opening brace give none;
    a value returned is a segment of the whitespace-stripped text that
    begins with an opening and ends with a closing brace; a closing brace
    met outside any object leaves the loop variables as they are; and
    closing braces put in front of a text are skipped, so that a text whose
    braces do not balance because of them still yields its object. *)
Theorem C10_salvage_edges (u t v : pystr) (k : nat) :
  lbrace ∉ u ->
  extract_first_json_object t = Some v ->
  extract_first_json_object [] = None
  ∧ extract_first_json_object u = None
  ∧ (∃ pre post, strip t = pre ++ v ++ post
                 ∧ head v = Some lbrace ∧ last v = Some rbrace)
  ∧ (∀ i s0 esc, step i rbrace (ScanState s0 0 false esc)
                 = Continue (ScanState s0 0 false false))
  ∧ extract_first_json_object (replicate k rbrace ++ t) = Some v.
Proof.
  assert (Hseg : ∀ x y, extract_first_json_object x = Some y ->
            ∃ pre post, strip x = pre ++ y ++ post
                        ∧ head y = Some lbrace ∧ last y = Some rbrace).
  { intros x y Hx. destruct x as [|c x]; [discriminate|].
    rewrite extract_nonempty in Hx by discriminate.
    destruct (run 0 (strip (c :: x)) init_state) as [st|lo hi] eqn:Hrun;
      [discriminate|].
    injection Hx as <-.
    apply run_sound_init in Hrun as (Hlo & Hlt & Hhi & Hl & Hr).
    apply slice_segment; assumption. }
  intros Hu Ht. split; [reflexivity|]. split; [|split; [|split]].
  - destruct (extract_first_json_object u) as [y|] eqn:Hy; [|reflexivity].
    exfalso. apply Hu.
    destruct (Hseg u y Hy) as (pre & post & Hs & Hhd & _).
    apply elem_of_strip. rewrite Hs.
    destruct y as [|c y]; [discriminate|]. injection Hhd as ->.
    apply elem_of_app. right. left.
  - apply Hseg. assumption.
  - intros i s0 esc. apply step_rbrace_stray.
  - rewrite extract_stray. assumption.
Qed.

Lemma C10_salvage_edges_witness :
  extract_first_json_object [] = None
  ∧ extract_first_json_object (py "no object here }") = None
  ∧ (∃ pre post, strip (py " }} see {a{b}} and } ")
                 = pre ++ py "{a{b}}" ++ post
                 ∧ head (py "{a{b}}") = Some lbrace
                 ∧ last (py "{a{b}}") = Some rbrace)
  ∧ (∀ i s0 esc, step i rbrace (ScanState s0 0 false esc)
                 = Continue (ScanState s0 0 false false))
  ∧ extract_first_json_object
      (replicate 3 rbrace ++ py " }} see {a{b}} and } ") = Some (py "{a{b}}").
Proof.
  apply (C10_salvage_edges (py "no object here }")
           (py " }} see {a{b}} and } ") (py "{a{b}}") 3).
  - intros Hin. apply list_elem_of_In in Hin. vm_compute in Hin.
    intuition discriminate.
  - vm_compute. reflexivity.
Defined.

End Scanner.

(** ** Subtraction of floats *)

Section FloatFacts.
Local Open Scope Q_scope.

Lemma floor_bounds (q : Q) :
  inject_Z (Qfloor q) <= q ∧ q < inject_Z (Qfloor q) + 1.
Proof.
  split; [apply Qfloor_le|].
  pose proof (Qlt_floor q) as H. rewrite inject_Z_plus in H. exact H.
Qed.

Lemma inject_Z_lt_succ (a b : Z) :
  inject_Z a < inject_Z b + 1 -> (a <= b)%Z.
Proof.
  intros H. apply Z.lt_succ_r. unfold Z.succ. rewrite Zlt_Qlt, inject_Z_plus.
  exact H.
Qed.

Lemma floor_ge (x : Q) (N : Z) : inject_Z N <= x -> (N <= Qfloor x)%Z.
Proof. intros H. rewrite <- (Qfloor_Z N). apply Qfloor_resp_le. exact H. Qed.

Lemma floor_lt (x : Q) (N : Z) : x < inject_Z N -> (Qfloor x < N)%Z.
Proof. intros H. pose proof (Qfloor_le x). rewrite Zlt_Qlt. lra. Qed.

Lemma round_half_even_cases (q : Q) :
  let f := Qfloor q in
  (q - inject_Z f < 1 # 2 ∧ round_half_even q = f)
  ∨ (1 # 2 < q - inject_Z f ∧ round_half_even q = (f + 1)%Z)
  ∨ (q - inject_Z f == 1 # 2
     ∧ round_half_even q = if Z.even f then f else (f + 1)%Z).
Proof.
  intros f. unfold round_half_even. fold f.
  destruct (Qcompare (q - inject_Z f) (1 # 2)) eqn:Hc.
  - right. right. split; [apply Qeq_alt; exact Hc | reflexivity].
  - left. split; [apply Qlt_alt; exact Hc | reflexivity].
  - right. left. split; [apply Qgt_alt; exact Hc | reflexivity].
Qed.

Lemma round_half_even_ge (q : Q) (N : Z) :
  inject_Z N <= q -> (N <= round_half_even q)%Z.
Proof.
  intros H. pose proof (floor_ge q N H) as Hf.
  destruct (round_half_even_cases q) as [[_ ->]|[[_ ->]|[_ ->]]];
    [| |destruct (Z.even (Qfloor q))]; lia.
Qed.

Lemma round_half_even_le (q : Q) (N : Z) :
  q <= inject_Z N -> (round_half_even q <= N)%Z.
Proof.
  intros H. destruct (floor_bounds q) as [Hlo Hhi].
  assert (Hf : (Qfloor q <= N)%Z) by (rewrite Zle_Qle; lra).
  destruct (Z.eq_dec (Qfloor q) N) as [Heq|Hne].
  - rewrite Heq in Hlo.
    destruct (round_half_even_cases q) as [[_ ->]|[[Hc _]|[Hc _]]];
      [lia | rewrite Heq in Hc; lra | rewrite Heq in Hc; lra].
  - destruct (round_half_even_cases q) as [[_ ->]|[[_ ->]|[_ ->]]];
      [| |destruct (Z.even (Qfloor q))]; lia.
Qed.

(** Ties go to the even neighbour: an even integer is reached from half a
    unit below it on. *)
Lemma round_half_even_reaches (q : Q) (M : Z) :
  Z.even M = true ->
  (M <= round_half_even q)%Z ↔ inject_Z M - (1 # 2) <= q.
Proof.
  intros Hev. destruct (floor_bounds q) as [Hlo Hhi].
  set (f := Qfloor q) in *.
  assert (Hinj : ∀ a b : Z, (a <= b)%Z -> inject_Z a <= inject_Z b)
    by (intros a b Hab; rewrite <- Zle_Qle; exact Hab).
  assert (Hodd : f = (M - 1)%Z -> Z.even f = false).
  { intros ->. replace (M - 1)%Z with (Z.pred M) by lia.
    rewrite Z.even_pred. rewrite <- Z.negb_even, Hev. reflexivity. }
  assert (Hle1 : inject_Z M - (1 # 2) <= q -> (M <= f + 1)%Z).
  { intros Hq. apply inject_Z_lt_succ. rewrite inject_Z_plus.
    change (inject_Z 1) with 1. lra. }
  destruct (round_half_even_cases q) as [[Hc ->]|[[Hc ->]|[Hc ->]]];
    fold f in Hc |- *.
  - split.
    + intros HM. apply Hinj in HM. lra.
    + intros Hq. apply inject_Z_lt_succ. lra.
  - split.
    + intros HM. apply Hinj in HM. rewrite inject_Z_plus in HM.
      change (inject_Z 1) with 1 in HM. lra.
    + exact Hle1.
  - destruct (Z.even f) eqn:Hf.
    + split.
      * intros HM. apply Hinj in HM. lra.
      * intros Hq. apply Hle1 in Hq.
        destruct (Z.eq_dec f (M - 1)%Z) as [Heq|Hne]; [|lia].
        pose proof (Hodd Heq) as Hf'. congruence.
    + split.
      * intros HM. apply Hinj in HM. rewrite inject_Z_plus in HM.
        change (inject_Z 1) with 1 in HM. lra.
      * exact Hle1.
Qed.

Lemma pow2_pos (e : Z) : 0 < 2 ^ e.
Proof. apply Qpower_0_lt. reflexivity. Qed.

Lemma pow2_add (a b : Z) : 2 ^ (a + b) == 2 ^ a * 2 ^ b.
Proof. apply Qpower_plus. discriminate. Qed.

Lemma pow2_inject (n : Z) : (0 <= n)%Z -> 2 ^ n == inject_Z (2 ^ n).
Proof. intros Hn. rewrite (Zpower_Qpower 2 n Hn). reflexivity. Qed.

Lemma pow2_cancel (e : Z) : 2 ^ (- e) * 2 ^ e == 1.
Proof.
  rewrite <- pow2_add. replace (- e + e)%Z with 0%Z by lia. reflexivity.
Qed.

(** The rounding of a positive number is not negative. *)
Lemma round_pos_nonneg (a : Q) : 0 < a -> 0 <= round_pos a.
Proof.
  intros Ha. unfold round_pos, scale2.
  set (e := Z.max (binade a - 52) (-1074)).
  pose proof (pow2_pos e) as He. pose proof (pow2_pos (- e)) as He'.
  assert (Hm : (0 <= round_half_even (a * 2 ^ (- e)))%Z).
  { apply round_half_even_ge. change (inject_Z 0) with 0.
    apply Qmult_le_0_compat; lra. }
  rewrite Zle_Qle in Hm. change (inject_Z 0) with 0 in Hm.
  apply Qmult_le_0_compat; lra.
Qed.

Lemma binade_integral (x : Q) : 1 <= x -> binade x = Z.log2 (Qfloor x).
Proof.
  intros Hx. unfold binade.
  destruct (Qle_bool 1 x) eqn:Hb; [reflexivity|].
  apply Qle_bool_iff in Hx. congruence.
Qed.

Lemma binade_1024 (x : Q) : 1024 <= x -> x < 2048 -> binade x = 10%Z.
Proof.
  intros Hlo Hhi. rewrite binade_integral by lra.
  apply Z.log2_unique; [lia|].
  pose proof (floor_ge x 1024 Hlo). pose proof (floor_lt x 2048 Hhi).
  change (2 ^ 10)%Z with 1024%Z. change (2 ^ Z.succ 10)%Z with 2048%Z. lia.
Qed.

Lemma binade_below_1024 (x : Q) : x < 1024 -> (binade x <= 9)%Z.
Proof.
  intros Hhi. unfold binade. destruct (Qle_bool 1 x).
  - pose proof (floor_lt x 1024 Hhi) as Hf.
    change 9%Z with (Z.log2 1023). apply Z.log2_le_mono. lia.
  - pose proof (Z.log2_up_nonneg (Qceiling (/ x))). lia.
Qed.

Lemma binade_from_2048 (x : Q) :
  2048 <= x -> (11 <= binade x)%Z ∧ 2 ^ binade x <= x.
Proof.
  intros Hlo. rewrite binade_integral by lra.
  pose proof (floor_ge x 2048 Hlo) as Hf.
  split.
  - change 11%Z with (Z.log2 2048). apply Z.log2_le_mono. exact Hf.
  - pose proof (Z.log2_spec (Qfloor x) ltac:(lia)) as [Hs _].
    rewrite pow2_inject by apply Z.log2_nonneg.
    rewrite Zle_Qle in Hs. pose proof (Qfloor_le x). lra.
Qed.

(** Where the rounding of a positive number reaches 1200: from 1200 less
    half a unit in the last place of the binary64 numbers below it, which
    are the multiples of [2^-42]. *)
Lemma round_pos_ge_1200 (x : Q) :
  0 < x -> (1200 <= round_pos x ↔ 1200 - (1 # 8796093022208) <= x).
Proof.
  intros Hx.
  destruct (Qlt_le_dec x 1024) as [Hsmall|H1024].
  { (* below 1024 the rounding stays at most 1024 *)
    pose proof (binade_below_1024 x Hsmall) as Hk.
    unfold round_pos, scale2.
    set (e := Z.max (binade x - 52) (-1074)).
    assert (He : (e <= -43)%Z) by (subst e; lia).
    pose proof (pow2_pos e) as Hpe. pose proof (pow2_pos (- e)) as Hpe'.
    assert (Hy : x * 2 ^ (- e) <= inject_Z (2 ^ (10 - e))).
    { rewrite <- pow2_inject by lia.
      replace (10 - e)%Z with (10 + - e)%Z by lia.
      rewrite pow2_add. change (2 ^ 10) with 1024.
      apply Qmult_le_compat_r; lra. }
    apply round_half_even_le in Hy. rewrite Zle_Qle in Hy.
    rewrite <- pow2_inject in Hy by lia.
    replace (10 - e)%Z with (10 + - e)%Z in Hy by lia.
    rewrite pow2_add in Hy. change (2 ^ 10) with 1024 in Hy.
    assert (Hr : inject_Z (round_half_even (x * 2 ^ (- e))) * 2 ^ e <= 1024).
    { apply (Qmult_le_compat_r _ _ (2 ^ e)) in Hy; [|lra].
      rewrite <- Qmult_assoc, pow2_cancel in Hy. lra. }
    split; intros; lra. }
  destruct (Qlt_le_dec x 2048) as [Hmid|H2048].
  { (* from 1024 to 2048 the rounding is to a multiple of 2^-42 *)
    unfold round_pos, scale2. rewrite (binade_1024 x H1024 Hmid).
    change (Z.max (10 - 52) (-1074)) with (-42)%Z.
    change (- -42)%Z with 42%Z.
    change (2 ^ 42) with (4398046511104 # 1).
    change (2 ^ (-42)) with (1 # 4398046511104).
    pose proof (round_half_even_reaches (x * (4398046511104 # 1))
                  5277655813324800 eq_refl) as Hr.
    rewrite Zle_Qle in Hr.
    change (inject_Z 5277655813324800) with (5277655813324800 # 1) in Hr.
    destruct Hr as [Hr1 Hr2].
    split; intros H.
    - assert (Hm : 5277655813324800
                   <= inject_Z (round_half_even (x * (4398046511104 # 1))))
        by lra.
      apply Hr1 in Hm. lra.
    - assert (Hq : 5277655813324800 - (1 # 2) <= x * (4398046511104 # 1))
        by lra.
      apply Hr2 in Hq. lra. }
  (* from 2048 on the rounding stays at least 2048 *)
  destruct (binade_from_2048 x H2048) as [Hk Hkx].
  unfold round_pos, scale2.
  set (k := binade x) in *.
  replace (Z.max (k - 52) (-1074)) with (k - 52)%Z by lia.
  pose proof (pow2_pos (k - 52)) as Hpe.
  pose proof (pow2_pos (- (k - 52))) as Hpe'.
  assert (Hy : inject_Z (2 ^ 52) <= x * 2 ^ (- (k - 52))).
  { rewrite <- pow2_inject by lia.
    replace 52%Z with (k + - (k - 52))%Z at 1 by lia.
    rewrite pow2_add. apply Qmult_le_compat_r; lra. }
  apply round_half_even_ge in Hy. rewrite Zle_Qle in Hy.
  rewrite <- pow2_inject in Hy by lia.
  assert (Hr : 2 ^ k
               <= inject_Z (round_half_even (x * 2 ^ (- (k - 52))))
                  * 2 ^ (k - 52)).
  { replace k with (52 + (k - 52))%Z at 1 by lia. rewrite pow2_add.
    apply Qmult_le_compat_r; lra. }
  assert (H11 : 2048 <= 2 ^ k).
  { change 2048 with (2 ^ 11).
    destruct (Z.eq_dec k 11%Z) as [ -> |Hne]; [lra|].
    apply Qlt_le_weak. apply Qpower_lt_compat_l; [lia | reflexivity]. }
  split; intros; lra.
Qed.

Lemma round_binary64_ge_1200 (x : Q) :
  1200 <= round_binary64 x ↔ 1200 - (1 # 8796093022208) <= x.
Proof.
  unfold round_binary64. destruct (Qcompare x 0) eqn:Hc.
  - apply Qeq_alt in Hc. split; intros; lra.
  - apply Qlt_alt in Hc.
    pose proof (round_pos_nonneg (- x) ltac:(lra)).
    split; intros; lra.
  - apply Qgt_alt in Hc. apply round_pos_ge_1200. exact Hc.
Qed.

End FloatFacts.

(** ** The session manager *)

Section SessionFacts.
Import Session.

Lemma random_choice_elem {A} (E : Env) (t : nat) (l : list A) (d : A) :
  l ≠ [] -> random_choice E t l d ∈ l.
Proof.
  intros Hl. unfold random_choice, randbelow.
  apply list_elem_of_In, nth_In.
  assert (0 < len l) by (destruct l; [contradiction | unfold len; simpl; lia]).
  pose proof (Z.mod_pos_bound (random_raw E t) (len l) ltac:(lia)).
  unfold len in *. lia.
Qed.

Lemma randint_range (E : Env) (t : nat) (a b : Z) :
  a <= b -> a <= randint E t a b <= b.
Proof.
  intros Hab. unfold randint, randbelow.
  pose proof (Z.mod_pos_bound (random_raw E t) (b - a + 1) ltac:(lia)). lia.
Qed.

(** The rotation check in terms of the age as the code computes it, and in
    terms of the exact difference of the two clock readings. *)
Lemma should_rotate_computed (now : Q) (sm : SessionManager) :
  should_rotate_session now sm = true
  ↔ request_limit <= request_count sm
    ∨ (inject_Z time_limit <= float_sub now (start_time sm))%Q.
Proof.
  unfold should_rotate_session.
  rewrite orb_true_iff, Z.geb_le, Qle_bool_iff. reflexivity.
Qed.

Lemma should_rotate_exact (now : Q) (sm : SessionManager) :
  should_rotate_session now sm = true
  ↔ request_limit <= request_count sm
    ∨ (inject_Z time_limit - (1 # 8796093022208) <= now - start_time sm)%Q.
Proof.
  rewrite should_rotate_computed. unfold float_sub.
  change (inject_Z time_limit) with 1200%Q.
  rewrite round_binary64_ge_1200. reflexivity.
Qed.




(** *** The id of a session *)

Lemma py_inj (a b : string) : py a = py b -> a = b.
Proof.
  unfold py. intros H.
  apply (f_equal (List.map Ascii.ascii_of_N)) in H.
  rewrite !List.map_map in H.
  rewrite !(List.map_ext _ (fun x => x) Ascii.ascii_N_embedding) in H.
  rewrite !List.map_id in H.
  rewrite <- (String.string_of_list_ascii_of_string a),
          <- (String.string_of_list_ascii_of_string b).
  congruence.
Qed.

Lemma to_int_proper (z : Z) :
  Z.to_int z ≠ Decimal.Pos Decimal.Nil ∧ Z.to_int z ≠ Decimal.Neg Decimal.Nil.
Proof.
  destruct z as [|p|p]; simpl; split; try discriminate;
    intros [= H]; exact (DecimalPos.Unsigned.to_uint_nonnil p H).
Qed.

(** [str(n)] tells the integers apart. *)
Lemma str_of_int_inj (a b : Z) : str_of_int a = str_of_int b -> a = b.
Proof.
  unfold str_of_int. intros H. apply py_inj in H.
  apply (f_equal DecimalString.NilZero.int_of_string) in H.
  destruct (to_int_proper a), (to_int_proper b).
  rewrite !DecimalString.NilZero.isi in H by assumption.
  injection H as H. apply DecimalZ.to_int_inj. exact H.
Qed.

Lemma uint_no_underscore (d : Decimal.uint) :
  95%N ∉ py (DecimalString.NilEmpty.string_of_uint d).
Proof.
  induction d; unfold py in *; simpl;
    [apply not_elem_of_nil | ..];
    (apply not_elem_of_cons; split; [discriminate | assumption]).
Qed.

(** The decimal notation of an integer has no underscore. *)
Lemma str_of_int_no_underscore (n : Z) : 95%N ∉ str_of_int n.
Proof.
  unfold str_of_int.
  assert (Hu : ∀ d, 95%N ∉ py (DecimalString.NilZero.string_of_uint d)).
  { intros d. destruct d; try apply uint_no_underscore.
    unfold py. simpl. apply not_elem_of_cons.
    split; [discriminate | apply not_elem_of_nil]. }
  destruct (Z.to_int n) as [d|d]; simpl; [apply Hu|].
  unfold py. simpl. apply not_elem_of_cons. split; [discriminate | apply Hu].
Qed.

Lemma split_at_underscore (a a' b b' : pystr) :
  95%N ∉ a -> 95%N ∉ a' ->
  a ++ 95%N :: b = a' ++ 95%N :: b' -> a = a' ∧ b = b'.
Proof.
  revert a'. induction a as [|c a IH]; intros [|c' a'] Ha Ha' H; simpl in H.
  - injection H as H. split; [reflexivity | exact H].
  - injection H as Hc _. exfalso. apply Ha'. rewrite <- Hc. left.
  - injection H as Hc _. exfalso. apply Ha. rewrite Hc. left.
  - injection H as Hc H. apply not_elem_of_cons in Ha as [_ Ha].
    apply not_elem_of_cons in Ha' as [_ Ha'].
    destruct (IH a' Ha Ha' H) as [-> ->]. rewrite Hc. split; reflexivity.
Qed.

(** Two ids are the same exactly when they were built from the same second
    and the same draw. *)
Lemma session_id_same (sec sec' draw draw' : Z) :
  py "session_" ++ str_of_int sec ++ py "_" ++ str_of_int draw
  = py "session_" ++ str_of_int sec' ++ py "_" ++ str_of_int draw'
  ↔ sec = sec' ∧ draw = draw'.
Proof.
  split; [|intros [-> ->]; reflexivity].
  intros H. apply app_inv_head in H.
  change (py "_") with [95%N] in H. simpl in H.
  apply split_at_underscore in H as [Hs Hd];
    try apply str_of_int_no_underscore.
  split; apply str_of_int_inj; assumption.
Qed.

(** C6 (as amended). [rotate_session] replaces the whole session, whatever
    it was, by a newly constructed one: its id is built from the second of
    the clock and a new draw in 1000..9999, its user agent and viewport are
    drawn anew from their catalogs (of 11 distinct user agents and of the 7
    viewports listed), its request count is zero and its creation time is
    the clock reading. The new values need not differ from the old ones:
    the id is that of the session constructed at another moment exactly
    when the second of the clock and the draw are the same. *)
Theorem C6_rotate_replaces_session (E : Env) (t : nat) (sm : SessionManager) :
  let sm' := fst (rotate_session E t sm) in
  rotate_session E t sm = init E t
  ∧ (∀ other, rotate_session E t other = rotate_session E t sm)
  ∧ session_id sm'
    = py "session_" ++ str_of_int (int_of_time (time_time E t))
        ++ py "_" ++ str_of_int (randint E (t + 1) 1000 9999)
  ∧ 1000 <= randint E (t + 1) 1000 9999 <= 9999
  ∧ (∀ t0, session_id (fst (init E t0)) = session_id sm'
           ↔ int_of_time (time_time E t0) = int_of_time (time_time E t)
             ∧ randint E (t0 + 1) 1000 9999 = randint E (t + 1) 1000 9999)
  ∧ user_agents !! Z.to_nat (random_raw E (t + 2) mod 11)
    = Some (user_agent sm')
  ∧ length user_agents = 11%nat ∧ NoDup user_agents
  ∧ viewports !! Z.to_nat (random_raw E (t + 3) mod 7) = Some (viewport sm')
  ∧ viewports = [ {| width := 1920; height := 1080 |};
                  {| width := 1366; height := 768 |};
                  {| width := 1440; height := 900 |};
                  {| width := 1536; height := 864 |};
                  {| width := 1280; height := 720 |};
                  {| width := 1600; height := 900 |};
                  {| width := 2560; height := 1440 |} ]
  ∧ request_count sm' = 0
  ∧ start_time sm' = time_time E (t + 4).
Proof.
  assert (Hnth : ∀ {A} (l : list A) (d : A) (i : Z),
             0 <= i < len l -> l !! Z.to_nat i = Some (nth (Z.to_nat i) l d)).
  { intros A l d i Hi.
    destruct (lookup_lt_is_Some_2 l (Z.to_nat i)) as [x Hx];
      [unfold len in Hi; lia|].
    rewrite Hx. f_equal. symmetry. apply nth_lookup_Some. exact Hx. }
  simpl. split; [reflexivity|]. split; [reflexivity|]. split; [reflexivity|].
  split; [apply randint_range; lia|].
  split; [intros t0; apply session_id_same|].
  split.
  { unfold get_random_user_agent, random_choice, randbelow.
    change (len user_agents) with 11. apply Hnth.
    change (len user_agents) with 11. apply Z.mod_pos_bound. lia. }
  split; [reflexivity|].
  split; [apply (bool_decide_unpack _); vm_compute; exact I|].
  split.
  { unfold get_random_viewport, random_choice, randbelow.
    change (len viewports) with 7. apply Hnth.
    change (len viewports) with 7. apply Z.mod_pos_bound. lia. }
  split; [reflexivity|]. split; reflexivity.
Qed.

(** C6 as stated fails: the session that the rotation puts in place can
    have the id, the user agent and the viewport of the session it
    replaces. Here the clock advances by a sixteenth of a second at each
    reading and the random source repeats itself; the session constructed
    at the start is rotated five readings later. *)
Lemma C6_counterexample :
  let E := {| time_time := fun t => (1756166400 + (Z.of_nat t # 16))%Q;
              random_raw := fun _ => 4821;
              arun := fun _ _ => page [];
              today_iso := py "2025-08-26" |} in
  let old := fst (init E 0) in
  let new := fst (rotate_session E 5 old) in
  session_id new = session_id old
  ∧ user_agent new = user_agent old
  ∧ viewport new = viewport old
  ∧ start_time new ≠ start_time old.
Proof.
  intros E old new.
  split; [vm_compute; reflexivity|]. split; [reflexivity|].
  split; [reflexivity|]. vm_compute. discriminate.
Qed.

End SessionFacts.

(** ** The pricing loop *)

Section PricingFacts.
Import Session Pricing.
Context (L : Lib) (E : Env).

Lemma crawls_app (a b : list Event) : crawls (a ++ b) = crawls a ++ crawls b.
Proof. unfold crawls. apply omap_app. Qed.

Lemma rotate_log (s : RunState) :
  log (rotate E s) = log s ++ [EvRotate]
  ∧ all_daily_rates (rotate E s) = all_daily_rates s.
Proof. split; reflexivity. Qed.

Lemma before_crawl_log (idx : Z) (s : RunState) :
  ∃ pre, log (before_crawl E idx s) = log s ++ pre
         ∧ Forall prelude pre
         ∧ all_daily_rates (before_crawl E idx s) = all_daily_rates s.
Proof.
  unfold before_crawl, prelude.
  destruct (should_rotate_session _ _), (idx >? 1), (idx =? 1); simpl;
    rewrite <- ?app_assoc; simpl;
    eexists; (split; [first [reflexivity | symmetry; apply app_nil_r]|]);
    (split; [|reflexivity]); repeat constructor; tauto.
Qed.

Lemma analyse_crawls (rt : list pystr) (v : DailyRate) :
  crawls (analyse rt v) = [].
Proof.
  unfold analyse. destruct (_ <? _); [|reflexivity].
  destruct (decide _); reflexivity.
Qed.

Lemma handle_content_crawls (profile : HotelProfile) (d raw : pystr)
    (s : RunState) :
  crawls (log (handle_content L profile d raw s)) = crawls (log s).
Proof.
  unfold handle_content, parse_failed.
  destruct (json_loads L (to_parse raw)) as [[]|]; simpl;
    rewrite ?crawls_app; simpl; rewrite ?app_nil_r; try reflexivity.
  destruct (model_validate L _); simpl;
    rewrite ?crawls_app, ?analyse_crawls; simpl; rewrite ?app_nil_r;
    reflexivity.
Qed.

Lemma after_crawl_crawls (profile : HotelProfile) (d : pystr)
    (r : CrawlResult) (s : RunState) :
  crawls (log (after_crawl L E profile d r s)) = crawls (log s).
Proof.
  unfold after_crawl. destruct (usable_content r) as [c|].
  - destruct (has_captcha c).
    + simpl. rewrite !crawls_app. simpl. rewrite !app_nil_r. reflexivity.
    + apply handle_content_crawls.
  - simpl. rewrite !crawls_app. simpl. rewrite !app_nil_r. reflexivity.
Qed.

(** One turn of the loop crawls one URL, once. *)
Lemma scrape_one_crawls (profile : HotelProfile) (idx : Z) (item : UrlDate)
    (s : RunState) :
  crawls (log (scrape_one L E profile idx item s))
  = crawls (log s) ++ [(idx, url item)].
Proof.
  unfold scrape_one. rewrite after_crawl_crawls. simpl.
  destruct (before_crawl_log idx s) as (pre & Hlog & Hpre & _).
  rewrite Hlog, !crawls_app. simpl.
  assert (Hnone : crawls pre = []).
  { clear Hlog. induction Hpre as [|e pre He _ IH]; [reflexivity|].
    destruct He as [ -> | [ -> | -> ] ]; simpl; exact IH. }
  rewrite Hnone, app_nil_r. reflexivity.
Qed.

Lemma scrape_loop_crawls_from (profile : HotelProfile) (items : list UrlDate) :
  ∀ k s,
  crawls (log (foldl (fun s '(idx, item) => scrape_one L E profile idx item s)
                 s (enumerate k items)))
  = crawls (log s) ++ map crawl_of (enumerate k items).
Proof.
  induction items as [|item items IH]; intros k s; simpl.
  - rewrite app_nil_r. reflexivity.
  - rewrite IH, scrape_one_crawls, <- app_assoc. reflexivity.
Qed.

(** Whatever the crawler answers, a run crawls each planned date exactly
    once, in the order of the plan. *)
Lemma run_crawls_plan (profile : HotelProfile) (start : date) (n : Z)
    (out : Outcome) :
  scrape_hotel_prices L E profile start n = Some out ->
  ∃ urls, plan L (hotel_url profile) start n = Some urls
          ∧ crawls (effects out) = map crawl_of (enumerate 1 urls).
Proof.
  unfold scrape_hotel_prices. simpl.
  destruct (plan L (hotel_url profile) start n) as [urls|]; [|discriminate].
  simpl. intros Hout. injection Hout as <-. simpl.
  exists urls. split; [reflexivity|].
  unfold scrape_loop. rewrite scrape_loop_crawls_from. reflexivity.
Qed.

(** *** CAPTCHA pages *)







(** *** Rooms missing from a validated rate *)

Lemma missing_rooms_spec (rt : list pystr) (v : DailyRate) (x : pystr) :
  x ∈ missing_rooms rt v ↔ x ∈ rt ∧ x ∉ map name (listings v).
Proof.
  unfold missing_rooms.
  rewrite elem_of_difference, !elem_of_list_to_set. reflexivity.
Qed.

(** Fewer listings than distinct catalog names: some name is missing. *)
Lemma fewer_listings_missing (rt : list pystr) (v : DailyRate) :
  NoDup rt -> len (listings v) < len rt -> missing_rooms rt v ≠ ∅.
Proof.
  intros Hnd Hlt Hempty.
  assert (Hsub : rt ⊆+ map name (listings v)).
  { apply NoDup_submseteq; [assumption|]. intros x Hx.
    destruct (decide (x ∈ map name (listings v))) as [|Hnot]; [assumption|].
    exfalso. apply (not_elem_of_empty (C:=gset pystr) x).
    rewrite <- Hempty. apply missing_rooms_spec. split; assumption. }
  apply submseteq_length in Hsub. rewrite length_map in Hsub.
  unfold len in Hlt. lia.
Qed.

(** Where the guard on the counts lets the comparison run: a validated rate
    with fewer listings than the catalog has names is accepted into the
    result and a warning is reported, followed by a report of the missing
    set, which contains exactly the catalog names absent from the listings
    and, for a catalog of distinct names, is not empty. *)
Lemma fewer_listings_reported (profile : HotelProfile) (d raw : pystr)
    (s : RunState) (members : list (pystr * json)) (v : DailyRate) :
  json_loads L (to_parse raw) = Some (JObject members) ->
  model_validate L (JObject members) = Some v ->
  len (listings v) < len (room_types profile) ->
  NoDup (room_types profile) ->
  let s' := handle_content L profile d raw s in
  let missing := missing_rooms (room_types profile) v in
  all_daily_rates s' = all_daily_rates s ++ [v]
  ∧ log s' = log s ++ [EvWarnFewer (len (listings v)) (len (room_types profile));
                       EvMissing missing]
  ∧ (∀ x, x ∈ missing ↔ x ∈ room_types profile ∧ x ∉ map name (listings v))
  ∧ missing ≠ ∅.
Proof.
  intros Hjson Hvalid Hlt Hnd s' missing. subst s' missing.
  pose proof (fewer_listings_missing _ _ Hnd Hlt) as Hne.
  unfold handle_content. rewrite Hjson, Hvalid. simpl.
  unfold analyse. destruct (Z.ltb_spec (len (listings v)) (len (room_types profile)));
    [|lia].
  destruct (decide (missing_rooms (room_types profile) v = ∅)); [contradiction|].
  split; [reflexivity|]. split; [reflexivity|].
  split; [intros x; apply missing_rooms_spec | assumption].
Qed.

End PricingFacts.

Section PricingExamples.
Import Session Pricing.




(** C4, at the input where the code departs from it. The response check
    tests four keywords and leaves out the fifth of the in-page predicates:
    a response that mentions only that one is flagged by the in-page
    predicate and not by the response check, and the loop treats it as
    ordinary content, without saving a CAPTCHA page, rotating or waiting. *)
Theorem C4_robot_response_not_flagged :
  let content := py "Please confirm that you are not a robot" in
  captcha_indicators = filter (fun k => k ≠ py "robot") (map lower captchaKeywords)
  ∧ (∀ c, has_captcha c = true ↔
          ∃ k, k ∈ captcha_indicators ∧ contains k (lower c) = true)
  ∧ page_has_captcha content = true
  ∧ has_captcha content = false
  ∧ ∃ out ua vp,
      scrape_hotel_prices demo_lib (const_env (page content)) demo_profile
        739489 1 = Some out
      ∧ effects out =
          [EvWarmUp;
           EvCrawl 1 (build_url (hotel_url demo_profile)
                        (py "2025-08-26") (py "2025-08-27")) ua vp;
           EvParseFailed;
           EvWriteFile (py "debug_2025-08-26.txt") content].
Proof.
  intros content. split; [vm_compute; reflexivity|]. split; [|split; [|split]].
  - intros c. unfold has_captcha. rewrite existsb_exists.
    split; intros (k & Hk & Hc); exists k; split; try assumption;
      apply list_elem_of_In; assumption.
  - vm_compute. reflexivity.
  - vm_compute. reflexivity.
  - do 3 eexists. split; vm_compute; reflexivity.
Qed.

(** C7, at the input where the code departs from it. The catalog has three
    names; the validated rate lists two of them and a room the catalog does
    not know. The catalog name Twin Room is absent from the listings, and
    the set difference that the code would print is exactly that name; yet
    the guard on the counts (3 is not less than 3) skips the comparison: the
    rate is accepted and nothing is reported, against the comment that
    introduces the guard (Warning if not all rooms found). On the sibling
    input with the two known rooms only, the same lines report the warning
    and the missing name. *)
Theorem C7_absent_room_not_reported :
  let turn v := handle_content (fixed_lib v) demo_profile
                  (py "2025-08-26") (py "{}") fresh_state in
  py "Twin Room" ∈ room_types demo_profile
  ∧ (py "Twin Room" ∉ map name (listings three_with_stranger))
  ∧ missing_rooms (room_types demo_profile) three_with_stranger
    = {[ py "Twin Room" ]}
  ∧ analyse (room_types demo_profile) three_with_stranger = []
  ∧ all_daily_rates (turn three_with_stranger) = [three_with_stranger]
  ∧ log (turn three_with_stranger) = []
  ∧ all_daily_rates (turn two_of_three) = [two_of_three]
  ∧ log (turn two_of_three) = [EvWarnFewer 2 3; EvMissing {[ py "Twin Room" ]}].
Proof.
  intros turn.
  assert (Hm : missing_rooms (room_types demo_profile) two_of_three
               = {[ py "Twin Room" ]})
    by (apply (bool_decide_unpack _); vm_compute; exact I).
  destruct (fewer_listings_reported (fixed_lib two_of_three) demo_profile
              (py "2025-08-26") (py "{}") fresh_state [] two_of_three)
    as (Hrates & Hlog & _).
  { reflexivity. }
  { reflexivity. }
  { vm_compute. reflexivity. }
  { apply (bool_decide_unpack _). vm_compute. exact I. }
  rewrite Hm in Hlog.
  split; [apply (bool_decide_unpack _); vm_compute; exact I|].
  split; [apply (bool_decide_unpack _); vm_compute; exact I|].
  split; [apply (bool_decide_unpack _); vm_compute; exact I|].
  split; [reflexivity|]. split; [reflexivity|]. split; [reflexivity|].
  split; [exact Hrates | exact Hlog].
Qed.

End PricingExamples.



(** ** Planning the dates *)

Lemma len_py_range (n : Z) : 0 <= n -> len (py_range n) = n.
Proof.
  intros Hn. unfold len, py_range. rewrite length_map, length_seq. lia.
Qed.

Lemma elem_of_py_range (n i : Z) : i ∈ py_range n -> 0 <= i < n.
Proof.
  unfold py_range. intros Hi.
  apply list_elem_of_fmap in Hi as (k & -> & Hk).
  apply elem_of_seq in Hk. lia.
Qed.

Lemma py_range_lookup (n i : Z) :
  0 <= i < n -> py_range n !! Z.to_nat i = Some i.
Proof.
  intros Hi. unfold py_range. rewrite list_lookup_fmap.
  rewrite lookup_seq_lt by lia. simpl. f_equal. lia.
Qed.

Lemma date_add_in_range (d k : Z) :
  date_min <= d + k -> d + k <= date_max -> date_add d k = Some (d + k).
Proof.
  intros H1 H2. unfold date_add.
  destruct (Z.leb_spec date_min (d + k)); [|lia].
  destruct (Z.leb_spec (d + k) date_max); [|lia]. reflexivity.
Qed.

Lemma mapM_all_some {A B} (g : A -> option B) (f : A -> B) (l : list A) :
  (∀ x, x ∈ l -> g x = Some (f x)) -> mapM g l = Some (map f l).
Proof.
  induction l as [|x l IH]; intros Hg; [reflexivity|].
  simpl. rewrite (Hg x) by left. simpl.
  rewrite IH by (intros y Hy; apply Hg; right; assumption).
  reflexivity.
Qed.

Lemma enumerate_range {A} (f : Z -> A) (n a : nat) :
  enumerate (Z.of_nat a + 1) (map f (map Z.of_nat (seq a n)))
  = map (fun i => (i + 1, f i)) (map Z.of_nat (seq a n)).
Proof.
  revert a. induction n as [|n IH]; intros a; [reflexivity|].
  simpl. f_equal.
  replace (Z.of_nat a + 1 + 1) with (Z.of_nat (S a) + 1) by lia.
  apply IH.
Qed.

Lemma enumerate_py_range {A} (f : Z -> A) (n : Z) :
  enumerate 1 (map f (py_range n)) = map (fun i => (i + 1, f i)) (py_range n).
Proof. exact (enumerate_range f (Z.to_nat n) 0). Qed.

Lemma date_add_some (d k o : Z) : date_add d k = Some o -> o = d + k.
Proof.
  unfold date_add. destruct (_ && _); [|discriminate].
  intros Heq. injection Heq as <-. reflexivity.
Qed.

Section PlanFacts.
Import Pricing.
Context (L : Lib).

Lemma plan_in_range (base : pystr) (start : date) (n : Z) :
  (∀ i, 0 <= i < n -> date_min <= start + i ∧ start + i + 1 <= date_max) ->
  plan L base start n = Some (map (planned L base start) (py_range n)).
Proof.
  intros Hrange. unfold plan. apply mapM_all_some.
  intros i Hi. apply elem_of_py_range in Hi.
  destruct (Hrange i Hi) as [Hlo Hhi]. unfold plan_item, date_min, date_max in *.
  rewrite date_add_in_range by (unfold date_min, date_max; lia). simpl.
  rewrite date_add_in_range by (unfold date_min, date_max; lia). reflexivity.
Qed.

End PlanFacts.

(** ** The discovery loop *)

Section DiscoveryFacts.
Import Discovery.
Context (L : Lib) (E : Env).

Lemma crawls_app' (a b : list Event) : crawls (a ++ b) = crawls a ++ crawls b.
Proof. unfold crawls. apply omap_app. Qed.

Lemma absorb_spec (r : CrawlResult) (s : LoopState) :
  tick (absorb L r s) = tick s
  ∧ sample_dates_acc (absorb L r s) = sample_dates_acc s
  ∧ crawls (log (absorb L r s)) = crawls (log s)
  ∧ discovered_rooms (absorb L r s)
    = update (discovered_rooms s) (sample_rooms L r).
Proof.
  unfold absorb, sample_rooms, update.
  destruct (usable_content r) as [c|]; simpl.
  - destruct (json_loads L c) as [[]|]; simpl;
      rewrite ?crawls_app', ?union_empty_r_L; simpl; rewrite ?app_nil_r;
      try (repeat split; reflexivity).
    destruct (decide _); simpl; rewrite ?app_nil_r; repeat split; reflexivity.
  - rewrite crawls_app', union_empty_r_L. simpl. rewrite app_nil_r.
    repeat split; reflexivity.
Qed.

Lemma sample_loop_spec (base : pystr) (start : date) (interval : Z)
    (offsets : list Z) : ∀ s,
  Forall (sample_in_range start interval) offsets ->
  ∃ s', sample_loop L E base start interval offsets s = Some s'
        ∧ sample_dates_acc s'
          = sample_dates_acc s
            ++ map (fun off => strftime L (start + off * interval)) offsets
        ∧ crawls (log s')
          = crawls (log s) ++ map (sample_url L base start interval) offsets
        ∧ discovered_rooms s'
          = foldl update (discovered_rooms s)
              (map (sample_rooms L)
                 (answers L E base start interval (tick s) offsets)).
Proof.
  induction offsets as [|off offsets IH]; intros s Hall.
  - exists s. simpl. rewrite ?app_nil_r. repeat split; reflexivity.
  - inversion Hall as [|? ? [Hlo Hhi] Hall']; subst.
    simpl. unfold sample_one.
    rewrite date_add_in_range by (unfold date_min, date_max in *; lia). simpl.
    rewrite date_add_in_range by (unfold date_min, date_max in *; lia). simpl.
    match goal with
    | |- context [absorb L ?r ?s1] =>
        set (r0 := r); set (s1' := s1)
    end.
    destruct (absorb_spec r0 s1') as (Ht & Hd & Hc & Hr).
    destruct (IH (absorb L r0 s1') Hall') as (s' & Hloop & Hd' & Hc' & Hr').
    exists s'. split; [exact Hloop|].
    rewrite Hd', Hc', Hr', Ht, Hd, Hc, Hr. subst s1' r0. simpl.
    destruct (off >? 0); simpl; rewrite !crawls_app'; simpl;
      rewrite <- !app_assoc; simpl; repeat split; reflexivity.
Qed.

(** The rooms discovered by a loop that ends are the union of what the
    answers contribute, date by date. *)
Lemma sample_loop_rooms (base : pystr) (start : date) (interval : Z)
    (offsets : list Z) : ∀ s s',
  sample_loop L E base start interval offsets s = Some s' ->
  discovered_rooms s'
  = foldl update (discovered_rooms s)
      (map (sample_rooms L) (answers L E base start interval (tick s) offsets)).
Proof.
  induction offsets as [|off offsets IH]; intros s s' Hloop.
  - injection Hloop as <-. reflexivity.
  - simpl in Hloop. unfold sample_one in Hloop.
    destruct (date_add start (off * interval)) as [d1|] eqn:Hd1;
      [|discriminate].
    simpl in Hloop.
    destruct (date_add d1 1) as [d2|] eqn:Hd2; [|discriminate].
    simpl in Hloop.
    apply date_add_some in Hd1, Hd2. subst d1 d2.
    apply IH in Hloop. rewrite Hloop.
    match goal with
    | |- context [absorb L ?r ?s1] =>
        destruct (absorb_spec r s1) as (Ht & _ & _ & Hr)
    end.
    rewrite Ht, Hr. reflexivity.
Qed.

(** With all sampled dates in range the function returns, with the sample
    dates, the crawls and the catalog as follows. *)
Lemma discover_spec (hotel base : pystr) (start : date) (count interval : Z) :
  (∀ i, 0 <= i < count -> sample_in_range start interval i) ->
  ∃ out md,
    discover_hotel_rooms L E hotel base start count interval = Some out
    ∧ metadata (profile out) = Some md
    ∧ sample_dates md
      = map (fun i => strftime L (start + i * interval)) (py_range count)
    ∧ crawls (effects out)
      = map (sample_url L base start interval) (py_range count)
    ∧ room_types (profile out)
      = catalog (map (sample_rooms L)
                   (answers L E base start interval 0 (py_range count))).
Proof.
  intros Hrange. unfold discover_hotel_rooms.
  match goal with
  | |- context [sample_loop L E base start interval ?offs ?s0] =>
      destruct (sample_loop_spec base start interval offs s0)
        as (s' & Hloop & Hd & Hc & Hr)
  end.
  { apply Forall_forall. intros i Hi. apply Hrange.
    apply elem_of_py_range. assumption. }
  rewrite Hloop. simpl. eexists. eexists.
  split; [reflexivity|]. simpl. split; [reflexivity|].
  split; [exact Hd|]. split; [exact Hc|].
  unfold catalog, union_all. rewrite Hr. reflexivity.
Qed.

End DiscoveryFacts.

(** C8. The dates visited are a function of the inputs alone, whatever the
    crawler, the clock and the random source do: [count] dates, the [i]-th
    being the start date plus [i] times the interval, for [i] from 0 to
    [count - 1]; in pricing mode the dates are consecutive days; and every
    URL carries its date as check-in and the next day as check-out. (The
    dates are supposed to lie in the range of [datetime.date].) *)
Theorem C8_navigation_plan (L : Lib) (E : Env) (hotel base : pystr)
    (profile : HotelProfile) (start : date) (count interval : Z) :
  0 <= count ->
  (∀ i, 0 <= i < count ->
        date_min <= start + i * interval
        ∧ start + i * interval + 1 <= date_max) ->
  (∀ i, 0 <= i < count ->
        date_min <= start + i ∧ start + i + 1 <= date_max) ->
  (len (py_range count) = count
   ∧ ∀ i, 0 <= i < count -> py_range count !! Z.to_nat i = Some i)
  ∧ (∃ out md,
       Discovery.discover_hotel_rooms L E hotel base start count interval
         = Some out
       ∧ metadata (Discovery.profile out) = Some md
       ∧ sample_dates md
         = map (fun i => strftime L (start + i * interval)) (py_range count)
       ∧ Discovery.crawls (Discovery.effects out)
         = map (fun i => build_url base
                           (strftime L (start + i * interval))
                           (strftime L (start + i * interval + 1)))
               (py_range count))
  ∧ (∃ out,
       Pricing.scrape_hotel_prices L E profile start count = Some out
       ∧ Pricing.plan L (hotel_url profile) start count
         = Some (map (fun i =>
                   {| Pricing.url :=
                        build_url (hotel_url profile)
                          (strftime L (start + i)) (strftime L (start + i + 1));
                      Pricing.date_str := strftime L (start + i) |})
                   (py_range count))
       ∧ Pricing.crawls (Pricing.effects out)
         = map (fun i => (i + 1,
                          build_url (hotel_url profile)
                            (strftime L (start + i))
                            (strftime L (start + i + 1))))
               (py_range count)).
Proof.
  intros Hcount Hdisc Hprice. split; [|split].
  - split; [apply len_py_range; assumption | apply py_range_lookup].
  - destruct (discover_spec L E hotel base start count interval Hdisc)
      as (out & md & Hout & Hmd & Hdates & Hcrawls & _).
    exists out, md. repeat split; assumption.
  - pose proof (plan_in_range L (hotel_url profile) start count Hprice) as Hplan.
    destruct (Pricing.scrape_hotel_prices L E profile start count)
      as [out|] eqn:Hout.
    + exists out. split; [reflexivity|]. split; [exact Hplan|].
      destruct (run_crawls_plan L E profile start count out Hout)
        as (urls & Hplan' & Hcr).
      rewrite Hplan in Hplan'. injection Hplan' as <-.
      rewrite Hcr, enumerate_py_range, map_map. reflexivity.
    + unfold Pricing.scrape_hotel_prices in Hout. simpl in Hout.
      rewrite Hplan in Hout. discriminate.
Qed.

(** The scenario of the specification: two samples a week apart from
    2025-08-26, and two consecutive days from the same date. *)
Lemma C8_navigation_plan_witness :
  let L := demo_lib in
  let E := const_env (page (py "[]")) in
  (len (py_range 2) = 2
   ∧ ∀ i, 0 <= i < 2 -> py_range 2 !! Z.to_nat i = Some i)
  ∧ (∃ out md,
       Discovery.discover_hotel_rooms L E (py "Minn Juso")
         (py "https://example.test/hotel") 739489 2 7 = Some out
       ∧ metadata (Discovery.profile out) = Some md
       ∧ sample_dates md
         = map (fun i => strftime L (739489 + i * 7)) (py_range 2)
       ∧ Discovery.crawls (Discovery.effects out)
         = map (fun i => build_url (py "https://example.test/hotel")
                           (strftime L (739489 + i * 7))
                           (strftime L (739489 + i * 7 + 1)))
               (py_range 2))
  ∧ (∃ out,
       Pricing.scrape_hotel_prices L E demo_profile 739489 2 = Some out
       ∧ Pricing.plan L (hotel_url demo_profile) 739489 2
         = Some (map (fun i =>
                   {| Pricing.url :=
                        build_url (hotel_url demo_profile)
                          (strftime L (739489 + i)) (strftime L (739489 + i + 1));
                      Pricing.date_str := strftime L (739489 + i) |})
                   (py_range 2))
       ∧ Pricing.crawls (Pricing.effects out)
         = map (fun i => (i + 1,
                          build_url (hotel_url demo_profile)
                            (strftime L (739489 + i))
                            (strftime L (739489 + i + 1))))
               (py_range 2)).
Proof.
  intros L E.
  apply (C8_navigation_plan L E (py "Minn Juso")
           (py "https://example.test/hotel") demo_profile 739489 2 7).
  - lia.
  - intros i Hi. unfold date_min, date_max. lia.
  - intros i Hi. unfold date_min, date_max. lia.
Defined.

(** ** The catalog of room names *)

Lemma str_leb_total (a : pystr) : ∀ b, str_leb a b = true ∨ str_leb b a = true.
Proof.
  induction a as [|x a IH]; intros [|y b]; simpl; auto.
  destruct (N.ltb_spec x y), (N.ltb_spec y x), (N.eqb_spec x y),
    (N.eqb_spec y x); simpl; auto; try lia.
Qed.

Lemma str_leb_trans (a : pystr) : ∀ b c,
  str_leb a b = true -> str_leb b c = true -> str_leb a c = true.
Proof.
  induction a as [|x a IH]; intros [|y b] [|z c]; simpl; auto;
    try discriminate.
  destruct (N.ltb_spec x y), (N.ltb_spec y z), (N.ltb_spec x z),
    (N.eqb_spec x y), (N.eqb_spec y z), (N.eqb_spec x z);
    simpl; auto; try lia; try discriminate.
  apply IH.
Qed.

#[local] Instance str_le_total : Total str_le.
Proof. intros a b. apply str_leb_total. Qed.

#[local] Instance str_le_trans : Transitive str_le.
Proof. intros a b c. apply str_leb_trans. Qed.

Section CatalogFacts.
Import Discovery.

Lemma elem_of_foldl_update (x : pystr) (samples : list (gset pystr)) :
  ∀ acc, x ∈ foldl update acc samples
         ↔ x ∈ acc ∨ ∃ sm, sm ∈ samples ∧ x ∈ sm.
Proof.
  induction samples as [|sm samples IH]; intros acc; simpl.
  - split; [auto|]. intros [?|(sm & Hsm & _)]; [assumption|].
    inversion Hsm.
  - rewrite IH. unfold update. rewrite elem_of_union. split.
    + intros [[?|?]|(sm' & Hsm' & Hx)]; [left; assumption| |].
      * right. exists sm. split; [left | assumption].
      * right. exists sm'. split; [right; assumption | assumption].
    + intros [?|(sm' & Hsm' & Hx)]; [left; left; assumption|].
      apply elem_of_cons in Hsm' as [->|Hsm'].
      * left. right. assumption.
      * right. exists sm'. split; assumption.
Qed.

Lemma elem_of_union_all (x : pystr) (samples : list (gset pystr)) :
  x ∈ union_all samples ↔ ∃ sm, sm ∈ samples ∧ x ∈ sm.
Proof.
  unfold union_all. rewrite elem_of_foldl_update.
  split; [intros [Hx|?]; [|assumption] | auto].
  exfalso. exact (not_elem_of_empty x Hx).
Qed.

Lemma elem_of_catalog (x : pystr) (samples : list (gset pystr)) :
  x ∈ catalog samples ↔ ∃ sm, sm ∈ samples ∧ x ∈ sm.
Proof.
  unfold catalog, sorted.
  rewrite (merge_sort_Permutation str_le), elem_of_elements.
  apply elem_of_union_all.
Qed.

(** C9. The union of the per-date sets is idempotent, commutative and
    associative, so that the catalog depends neither on the order of the
    samples nor on how often a name is seen; a name is in the catalog exactly
    when one of the samples holds that very string (names that differ in
    case are different entries); and the catalog, which the function returns
    as the room types of the profile, is sorted and free of duplicates. *)
Theorem C9_catalog_union (L : Lib) (E : Env) (hotel base : pystr)
    (start : date) (count interval : Z) (out : Outcome)
    (a b c : gset pystr) (samples samples' : list (gset pystr)) (x : pystr) :
  discover_hotel_rooms L E hotel base start count interval = Some out ->
  samples ≡ₚ samples' ->
  (update a a = a
   ∧ update a b = update b a
   ∧ update (update a b) c = update a (update b c))
  ∧ (union_all samples = union_all samples'
     ∧ union_all (samples ++ samples') = update (union_all samples) (union_all samples')
     ∧ catalog [ {[x]} ; {[x]} ] = [x])
  ∧ ((x ∈ catalog samples ↔ ∃ sm, sm ∈ samples ∧ x ∈ sm)
     ∧ catalog [ {[ py "Suite" ]} ; {[ py "suite" ]} ] = [py "Suite"; py "suite"])
  ∧ (NoDup (catalog samples) ∧ StronglySorted str_le (catalog samples))
  ∧ (room_types (profile out)
     = catalog (map (sample_rooms L)
                  (answers L E base start interval 0 (py_range count)))
     ∧ NoDup (room_types (profile out))
     ∧ StronglySorted str_le (room_types (profile out))).
Proof.
  intros Hout Hperm.
  assert (Hnodup : ∀ l, NoDup (catalog l)).
  { intros l. unfold catalog, sorted.
    rewrite (merge_sort_Permutation str_le). apply NoDup_elements. }
  assert (Hsorted : ∀ l, StronglySorted str_le (catalog l)).
  { intros l. unfold catalog, sorted. apply StronglySorted_merge_sort; apply _. }
  split; [|split; [|split; [|split]]].
  - unfold update. split; [|split].
    + apply union_idemp_L.
    + apply union_comm_L.
    + symmetry. apply union_assoc_L.
  - split; [|split].
    + apply set_eq. intros y. rewrite !elem_of_union_all.
      split; intros (sm & Hsm & Hy); exists sm; split; try assumption.
      * rewrite <- Hperm. assumption.
      * rewrite Hperm. assumption.
    + apply set_eq. intros y. unfold update.
      rewrite elem_of_union, !elem_of_union_all. split.
      * intros (sm & Hsm & Hy). apply elem_of_app in Hsm as [?|?];
          [left|right]; exists sm; split; assumption.
      * intros [(sm & Hsm & Hy)|(sm & Hsm & Hy)]; exists sm;
          (split; [apply elem_of_app; auto | assumption]).
    + unfold catalog, union_all, update. simpl.
      rewrite union_empty_l_L, union_idemp_L, elements_singleton. reflexivity.
  - split; [apply elem_of_catalog|].
    apply (bool_decide_unpack _). vm_compute. exact I.
  - split; [apply Hnodup | apply Hsorted].
  - unfold discover_hotel_rooms in Hout.
    destruct (sample_loop L E base start interval (py_range count) _)
      as [s|] eqn:Hloop; [|discriminate].
    simpl in Hout. injection Hout as <-. simpl.
    apply sample_loop_rooms in Hloop. simpl in Hloop.
    assert (Heq : sorted (elements (discovered_rooms s))
                  = catalog (map (sample_rooms L)
                      (answers L E base start interval 0 (py_range count)))).
    { unfold catalog, union_all. rewrite Hloop. reflexivity. }
    rewrite Heq. split; [reflexivity|]. split; [apply Hnodup | apply Hsorted].
Qed.

Lemma C9_catalog_union_witness :
  let a : gset pystr := {[ py "Twin Room" ]} in
  let b : gset pystr := {[ py "Double Room"; py "Twin Room" ]} in
  let c : gset pystr := {[ py "Suite" ]} in
  let x := py "Twin Room" in
  ∃ out,
    discover_hotel_rooms rooms_lib (const_env (page (py "[...]")))
      (py "Minn Juso") (py "https://example.test/hotel") 739489 2 7 = Some out
    ∧ room_types (profile out) = [py "Double Room"; py "Twin Room"]
    ∧ (update a a = a
       ∧ update a b = update b a
       ∧ update (update a b) c = update a (update b c))
    ∧ (union_all [a; b] = union_all [b; a]
       ∧ union_all ([a; b] ++ [b; a]) = update (union_all [a; b]) (union_all [b; a])
       ∧ catalog [ {[x]} ; {[x]} ] = [x])
    ∧ ((x ∈ catalog [a; b] ↔ ∃ sm, sm ∈ [a; b] ∧ x ∈ sm)
       ∧ catalog [ {[ py "Suite" ]} ; {[ py "suite" ]} ]
         = [py "Suite"; py "suite"])
    ∧ (NoDup (catalog [a; b]) ∧ StronglySorted str_le (catalog [a; b])).
Proof.
  intros a b c x.
  destruct (discover_hotel_rooms rooms_lib (const_env (page (py "[...]")))
              (py "Minn Juso") (py "https://example.test/hotel") 739489 2 7)
    as [out|] eqn:Hout; [|vm_compute in Hout; discriminate].
  destruct (C9_catalog_union rooms_lib (const_env (page (py "[...]")))
              (py "Minn Juso") (py "https://example.test/hotel") 739489 2 7
              out a b c [a; b] [b; a] x Hout (perm_swap b a []))
    as (H1 & H2 & H3 & H4 & H5 & _ & _).
  exists out. split; [reflexivity|]. split; [|tauto].
  rewrite H5. apply (bool_decide_unpack _). vm_compute. exact I.
Defined.

End CatalogFacts.

(** ** More on the salvage parser *)

Section SalvageMore.
Import Salvage.

#[local] Arguments step : simpl never.

Lemma lstrip_app_suffix (a b : pystr) : ∃ z, lstrip (a ++ b) = z ++ lstrip b.
Proof.
  induction a as [|c a IH]; simpl.
  - exists []. reflexivity.
  - destruct (is_space c); [exact IH|].
    destruct (lstrip_split b) as (ws & Hb & _).
    exists (c :: a ++ ws). simpl. rewrite <- app_assoc, <- Hb. reflexivity.
Qed.

Lemma rstrip_app_prefix (t u : pystr) : ∃ w, rstrip (t ++ u) = rstrip t ++ w.
Proof.
  unfold rstrip. rewrite rev_app_distr.
  destruct (lstrip_app_suffix (rev u) (rev t)) as (z & Hz).
  exists (rev z). rewrite Hz, rev_app_distr. reflexivity.
Qed.

Lemma lstrip_app_nonempty (l w : pystr) :
  lstrip l ≠ [] -> lstrip (l ++ w) = lstrip l ++ w.
Proof.
  induction l as [|c l IH]; simpl; [contradiction|].
  destruct (is_space c); [exact IH | reflexivity].
Qed.

Lemma strip_app_prefix (t u : pystr) :
  strip t ≠ [] -> ∃ w, strip (t ++ u) = strip t ++ w.
Proof.
  unfold strip. intros Hne.
  destruct (rstrip_app_prefix t u) as (w & Hw).
  exists w. rewrite Hw. apply lstrip_app_nonempty. assumption.
Qed.

Lemma slice_app_l {A} (s w : list A) (lo hi : Z) :
  0 <= lo -> lo <= hi -> hi <= len s -> slice (s ++ w) lo hi = slice s lo hi.
Proof.
  intros Hlo Hle Hhi. pose proof (len_nonneg w).
  rewrite !slice_inside by (rewrite ?len_app; lia).
  rewrite drop_app_le by (unfold len in *; lia).
  apply take_app_le. rewrite length_drop. unfold len in *. lia.
Qed.

(** X1. Text added after a text from which an object is salvaged does not
    change the result. *)
Theorem salvage_ignores_what_follows (t u v : pystr) :
  extract_first_json_object t = Some v ->
  extract_first_json_object (t ++ u) = Some v.
Proof.
  intros Ht. destruct t as [|c t]; [discriminate|].
  rewrite extract_nonempty in Ht by discriminate.
  rewrite extract_nonempty by discriminate.
  destruct (run 0 (strip (c :: t)) init_state) as [st|lo hi] eqn:Hrun;
    [discriminate|].
  injection Ht as <-.
  destruct (strip_app_prefix (c :: t) u) as (w & Hw).
  { intros Hnil. rewrite Hnil in Hrun. discriminate. }
  rewrite Hw, run_app, Hrun.
  apply run_sound_init in Hrun as (Hlo & Hlt & Hhi & _).
  f_equal. apply slice_app_l; lia.
Qed.

Lemma salvage_ignores_what_follows_witness :
  extract_first_json_object (py " see {a{b}} " ++ py "and { more")
  = Some (py "{a{b}}").
Proof.
  apply (salvage_ignores_what_follows (py " see {a{b}} ") (py "and { more")).
  vm_compute. reflexivity.
Defined.

(** *** Salvaging what was salvaged *)

Ltac step_cases :=
  unfold step; simpl;
  repeat match goal with
  | |- context [(?a =? ?b)%N] => destruct (N.eqb_spec a b); subst; simpl
  | |- context [?a =? ?b] => destruct (Z.eqb_spec a b); simpl
  | |- context [?a >? ?b] => destruct (Z.gtb_spec a b); simpl
  | |- context [if ?b then _ else _] => destruct b; simpl
  end.

Lemma step_opens (i : Z) (c : N) (st st' : scan_state) :
  step i c st = Continue st' -> 0 <= brace_count st ->
  0 <= brace_count st'
  ∧ (0 < brace_count st' ->
     (0 < brace_count st ∧ start st' = start st)
     ∨ (brace_count st = 0 ∧ c = lbrace ∧ st' = ScanState i 1 false false)).
Proof.
  destruct st as [s0 bc ins esc]. revert st'.
  step_cases; intros st' Heq; try discriminate;
    injection Heq as <-; simpl; intros Hbc; (split; [lia|]); intros Hpos;
    first [left; split; [lia | reflexivity]
          | right; subst; repeat split; reflexivity
          | exfalso; lia].
Qed.

Lemma run_reparse (l : pystr) : ∀ pre st lo hi,
  0 <= brace_count st ->
  (0 < brace_count st ->
   0 <= start st <= len pre
   ∧ ∃ st0, run 0 (drop (Z.to_nat (start st)) pre) init_state = Continue st0
            ∧ shifted (start st) st0 st) ->
  run (len pre) l st = Return lo hi ->
  run 0 (slice (pre ++ l) lo hi) init_state = Return 0 (hi - lo).
Proof.
  induction l as [|c l IH]; intros pre st lo hi Hbc Hinv Hrun; [discriminate|].
  rewrite run_cons in Hrun. pose proof (len_nonneg pre) as Hpre.
  destruct (step (len pre) c st) as [st'|lo' hi'] eqn:Hstep.
  - replace (pre ++ c :: l) with ((pre ++ [c]) ++ l)
      by (rewrite <- app_assoc; reflexivity).
    destruct (step_opens _ _ _ _ Hstep Hbc) as [Hbc' Hopen].
    apply (IH (pre ++ [c]) st'); [exact Hbc'| |rewrite len_app; exact Hrun].
    intros Hpos. rewrite len_app. change (len [c]) with 1.
    destruct (Hopen Hpos) as [[Hpos0 Hstart]|(Hzero & -> & ->)].
    + destruct (Hinv Hpos0) as (Hrange & st0 & Hrun0 & Hsh).
      rewrite Hstart. split; [lia|].
      pose proof (step_shift (start st) (len pre - start st) c st0 st
                    ltac:(lia) ltac:(lia) Hsh) as Hss.
      replace (len pre - start st + start st) with (len pre) in Hss by lia.
      rewrite Hstep in Hss.
      destruct (step (len pre - start st) c st0) as [st0'|] eqn:Hstep0;
        [|contradiction].
      exists st0'. split.
      * rewrite drop_app_le by (unfold len in *; lia).
        rewrite run_snoc, Hrun0.
        replace (0 + len (drop (Z.to_nat (start st)) pre))
          with (len pre - start st)
          by (unfold len in *; rewrite length_drop; lia).
        exact Hstep0.
      * simpl in Hss. destruct Hss as (H1 & H2 & H3 & H4).
        repeat split; try assumption.
        -- apply H4. assumption.
        -- destruct Hsh as (Hb & _ & _ & Hs0).
           rewrite <- Hstart. simpl in *.
           assert (Hpos0' : 0 < brace_count st0) by lia.
           destruct (Hs0 Hpos0') as [_ Hs0'].
           destruct (step_opens _ _ _ _ Hstep0 ltac:(lia)) as [_ Hopen0].
           destruct (Hopen0 H) as [[_ Heq]|(Hz & _)]; [|lia].
           destruct (H4 H) as [_ Heq']. lia.
    + simpl. split; [lia|].
      exists (ScanState 0 1 false false). split.
      * replace (Z.to_nat (len pre)) with (length pre) by (unfold len; lia).
        rewrite drop_app_length. reflexivity.
      * repeat split; simpl; lia.
  - injection Hrun as <- <-.
    apply step_return in Hstep as Hret.
    destruct Hret as (-> & _ & Hone & Hlo & Hhi). subst lo' hi'.
    destruct Hinv as (Hrange & st0 & Hrun0 & Hsh); [lia|].
    pose proof (len_nonneg l).
    rewrite slice_inside by (rewrite ?len_app, ?len_cons; lia).
    rewrite drop_app_le by (unfold len in *; lia).
    replace (Z.to_nat (len pre + 1 - start st))
      with (length (drop (Z.to_nat (start st)) pre ++ [rbrace]))
      by (rewrite length_app, length_drop; unfold len in *; simpl; lia).
    replace (drop (Z.to_nat (start st)) pre ++ rbrace :: l)
      with ((drop (Z.to_nat (start st)) pre ++ [rbrace]) ++ l)
      by (rewrite <- app_assoc; reflexivity).
    rewrite take_app_length, run_snoc, Hrun0.
    pose proof (step_shift (start st) (len pre - start st) rbrace st0 st
                  ltac:(lia) ltac:(lia) Hsh) as Hss.
    replace (len pre - start st + start st) with (len pre) in Hss by lia.
    rewrite Hstep in Hss.
    replace (0 + len (drop (Z.to_nat (start st)) pre))
      with (len pre - start st)
      by (unfold len in *; rewrite length_drop; lia).
    destruct (step (len pre - start st) rbrace st0) as [|lo0 hi0];
      [contradiction|].
    simpl in Hss. destruct Hss as [Hl Hh]. f_equal; lia.
Qed.

Lemma strip_fixed (v : pystr) (x y : N) :
  head v = Some x -> last v = Some y ->
  is_space x = false -> is_space y = false -> strip v = v.
Proof.
  intros Hx Hy Hsx Hsy. unfold strip.
  apply last_Some in Hy as (v' & ->).
  assert (Hr : rstrip (v' ++ [y]) = v' ++ [y]).
  { unfold rstrip. rewrite rev_app_distr. simpl. rewrite Hsy.
    change (y :: rev v') with (rev [y] ++ rev v').
    rewrite <- rev_app_distr, rev_involutive. reflexivity. }
  rewrite Hr. destruct (v' ++ [y]) as [|c r]; [reflexivity|].
  injection Hx as ->. simpl. rewrite Hsx. reflexivity.
Qed.

(** X2. Salvaging is idempotent: an object salvaged from a text is salvaged
    from itself, unchanged; so the text handed to the JSON parser would
    come out the same if it were prepared a second time. *)
Theorem salvage_idempotent (t v : pystr) :
  extract_first_json_object t = Some v ->
  extract_first_json_object v = Some v
  ∧ Pricing.to_parse (Pricing.to_parse t) = Pricing.to_parse t.
Proof.
  intros Ht.
  assert (Hv : extract_first_json_object v = Some v).
  { destruct t as [|c t]; [discriminate|].
    rewrite extract_nonempty in Ht by discriminate.
    destruct (run 0 (strip (c :: t)) init_state) as [st|lo hi] eqn:Hrun;
      [discriminate|].
    injection Ht as <-.
    pose proof (run_sound_init _ _ _ Hrun) as (Hlo & Hlt & Hhi & Hl & Hr).
    destruct (slice_segment _ _ _ _ _ Hlo Hlt Hhi Hl Hr)
      as (pre & post & _ & Hhd & Hlast).
    pose proof (run_reparse (strip (c :: t)) [] init_state lo hi
                  ltac:(simpl; lia) ltac:(simpl; lia) Hrun) as Hre.
    simpl app in Hre.
    set (v := slice (strip (c :: t)) lo hi) in *.
    assert (Hlen : len v = hi - lo).
    { subst v. rewrite slice_inside by lia.
      unfold len in *. rewrite length_take, length_drop. lia. }
    rewrite extract_nonempty by (intros Hnil; rewrite Hnil in Hhd; discriminate).
    rewrite (strip_fixed v lbrace rbrace) by (assumption || reflexivity).
    rewrite Hre. f_equal.
    rewrite <- Hlen. rewrite slice_inside by (pose proof (len_nonneg v); lia).
    rewrite Z.sub_0_r. simpl drop.
    replace (Z.to_nat (len v)) with (length v) by (unfold len; lia).
    apply firstn_all. }
  split; [exact Hv|].
  unfold Pricing.to_parse. rewrite Ht.
  destruct v as [|c cs]; [rewrite Ht; reflexivity|].
  rewrite Hv. reflexivity.
Qed.

Lemma salvage_idempotent_witness :
  extract_first_json_object (py "{a{b}}") = Some (py "{a{b}}")
  ∧ Pricing.to_parse (Pricing.to_parse (py "``` {a{b}} ```"))
    = Pricing.to_parse (py "``` {a{b}} ```").
Proof.
  apply (salvage_idempotent (py "``` {a{b}} ```") (py "{a{b}}")).
  vm_compute. reflexivity.
Defined.

End SalvageMore.

(** ** More on the session manager and the pricing loop *)

Section PricingMore.
Import Session Pricing Loops.
Context (L : Lib) (E : Env).

Lemma lower_app (a b : pystr) : lower (a ++ b) = lower a ++ lower b.
Proof. unfold lower. apply flat_map_app. Qed.

Lemma is_prefix_app (k b : pystr) : is_prefix k (k ++ b) = true.
Proof.
  induction k as [|c k IH]; [reflexivity|].
  simpl. rewrite N.eqb_refl. exact IH.
Qed.

Lemma contains_prefix (k hay : pystr) :
  is_prefix k hay = true -> contains k hay = true.
Proof. intros H. destruct hay; simpl; rewrite H; reflexivity. Qed.

Lemma contains_inside (k a b : pystr) : contains k (a ++ k ++ b) = true.
Proof.
  induction a as [|c a IH].
  - change ([] ++ k ++ b) with (k ++ b).
    apply contains_prefix. apply is_prefix_app.
  - simpl. rewrite IH. apply orb_true_r.
Qed.

(** X3. A response that contains one of the four keywords of the response
    check anywhere, in whatever letter case, and that can be written as
    UTF-8, is taken for a CAPTCHA page: it contributes no rate, whatever it
    would parse to; the response is saved, the session rotated and
    human_like_delay(30, 60) called. *)
Theorem captcha_keyword_anywhere (profile : HotelProfile) (d : pystr)
    (r : CrawlResult) (s : RunState) (a x b k : pystr) :
  k ∈ captcha_indicators ->
  lower x = k ->
  usable_content r = Some (a ++ x ++ b) ->
  utf8_encodable (a ++ x ++ b) ->
  let s' := after_crawl L E profile d r s in
  has_captcha (a ++ x ++ b) = true
  ∧ validated_rate L r = None
  ∧ all_daily_rates s' = all_daily_rates s
  ∧ log s' = log s ++ [EvWriteFile (captcha_file d) (a ++ x ++ b);
                       EvRotate; EvDelay 30 60].
Proof.
  intros Hk Hx Hr _ s'.
  assert (Hcap : has_captcha (a ++ x ++ b) = true).
  { unfold has_captcha. apply existsb_exists. exists k.
    split; [apply list_elem_of_In; assumption|].
    rewrite !lower_app, Hx. apply contains_inside. }
  split; [exact Hcap|]. subst s'.
  unfold validated_rate, after_crawl. rewrite Hr, Hcap. simpl.
  rewrite <- !app_assoc. repeat split; reflexivity.
Qed.

(** X4. A session that is due for rotation stays due until it is rotated:
    neither the passing of time nor further requests make
    [should_rotate_session] false again. *)
Theorem rotation_stays_due (now later : Q) (sm : SessionManager) :
  should_rotate_session now sm = true ->
  (now <= later)%Q ->
  should_rotate_session later sm = true
  ∧ should_rotate_session later (increment_request sm) = true.
Proof.
  intros Hdue Hlater. apply should_rotate_exact in Hdue.
  split; apply should_rotate_exact; simpl;
    (destruct Hdue as [Hc|Ht]; [left; lia | right; lra]).
Qed.

End PricingMore.

Section PricingMoreExamples.
Import Session Pricing Loops.

Lemma captcha_keyword_anywhere_witness :
  let content := py "[{name: Suite, note: no CAPTCHA here, price: 100}]" in
  let s' := after_crawl (fixed_lib two_of_three) (const_env (page content))
              demo_profile (py "2025-08-26") (page content) fresh_state in
  has_captcha content = true
  ∧ validated_rate (fixed_lib two_of_three) (page content) = None
  ∧ all_daily_rates s' = all_daily_rates fresh_state
  ∧ log s' = log fresh_state
             ++ [EvWriteFile (captcha_file (py "2025-08-26")) content;
                 EvRotate; EvDelay 30 60].
Proof.
  intros content.
  apply (captcha_keyword_anywhere (fixed_lib two_of_three)
           (const_env (page content)) demo_profile (py "2025-08-26")
           (page content) fresh_state
           (py "[{name: Suite, note: no ") (py "CAPTCHA")
           (py " here, price: 100}]") (py "captcha")).
  - apply (bool_decide_unpack _). vm_compute. exact I.
  - reflexivity.
  - reflexivity.
  - apply (bool_decide_unpack _). vm_compute. exact I.
Defined.

Lemma rotation_stays_due_witness :
  let sm := {| session_id := py "session_1756166400_4821";
               user_agent := []; viewport := {| width := 1920; height := 1080 |};
               request_count := 3; start_time := 1756166400 |} in
  should_rotate_session 1756167700 sm = true
  ∧ should_rotate_session 1756167700 (increment_request sm) = true.
Proof.
  intros sm. apply (rotation_stays_due 1756167600 1756167700 sm).
  - reflexivity.
  - vm_compute. discriminate.
Defined.

End PricingMoreExamples.

(** ** The turns of the pricing loop *)

Section LoopMore.
Import Session Pricing Loops.
Context (L : Lib) (E : Env).

Abbreviation body profile :=
  (fun (s : RunState) '(idx, item) => scrape_one L E profile idx item s).

(** *** The request count of the session *)

Lemma before_crawl_count (idx : Z) (s : RunState) :
  0 <= request_count (session_manager s) <= request_limit ->
  1 <= request_count (session_manager (before_crawl E idx s)) <= request_limit.
Proof.
  intros Hs. unfold before_crawl.
  destruct (should_rotate_session _ _) eqn:Hrot;
    destruct (idx >? 1), (idx =? 1); simpl in *;
    try (unfold request_limit; lia);
    unfold should_rotate_session in Hrot; simpl in Hrot;
    apply orb_false_iff in Hrot as [Hc _];
    rewrite Z.geb_leb in Hc; apply Z.leb_gt in Hc; lia.
Qed.

Lemma handle_content_session (profile : HotelProfile) (d raw : pystr)
    (s : RunState) :
  session_manager (handle_content L profile d raw s) = session_manager s.
Proof.
  unfold handle_content, parse_failed.
  destruct (json_loads L (to_parse raw)) as [[]|]; try reflexivity.
  destruct (model_validate L _); reflexivity.
Qed.

Lemma after_crawl_count (profile : HotelProfile) (d : pystr)
    (r : CrawlResult) (s : RunState) :
  0 <= request_count (session_manager s) <= request_limit ->
  0 <= request_count (session_manager (after_crawl L E profile d r s))
    <= request_limit.
Proof.
  intros Hs. unfold after_crawl.
  destruct (usable_content r) as [c|]; [destruct (has_captcha c)|];
    rewrite ?handle_content_session; simpl; try assumption;
    unfold request_limit; lia.
Qed.

Lemma scrape_one_count (profile : HotelProfile) (idx : Z) (item : UrlDate)
    (s : RunState) :
  0 <= request_count (session_manager s) <= request_limit ->
  0 <= request_count (session_manager (scrape_one L E profile idx item s))
    <= request_limit.
Proof.
  intros Hs. unfold scrape_one. apply after_crawl_count. simpl.
  pose proof (before_crawl_count idx s Hs). lia.
Qed.

Lemma turns_count (profile : HotelProfile) (turns : list (Z * UrlDate)) :
  ∀ s, 0 <= request_count (session_manager s) <= request_limit ->
       0 <= request_count (session_manager (foldl (body profile) s turns))
         <= request_limit.
Proof.
  induction turns as [|[idx item] turns IH]; intros s Hs; [exact Hs|].
  simpl. apply IH. apply scrape_one_count. exact Hs.
Qed.

(** X5. No session serves more than [request_limit] crawls: at every date of
    a run, whatever happened at the dates before, the session that performs
    the crawl counts between 1 and 10 requests, this one included. *)
Theorem session_serves_at_most_ten (profile : HotelProfile)
    (urls : list UrlDate) (j : nat) (idx : Z) :
  let s := after_turns L E profile urls j in
  0 <= request_count (session_manager s) <= request_limit
  ∧ 1 <= request_count (session_manager (before_crawl E idx s))
      <= request_limit.
Proof.
  intros s.
  assert (Hs : 0 <= request_count (session_manager s) <= request_limit).
  { subst s. unfold after_turns. apply turns_count.
    simpl. unfold request_limit. lia. }
  split; [exact Hs | apply before_crawl_count; exact Hs].
Qed.

(** *** The shape of a turn *)

Lemma before_crawl_shape (idx : Z) (s : RunState) :
  ∃ rot, log (before_crawl E idx s) = log s ++ rot ++ gap idx
         ∧ (rot = [] ∨ rot = [EvRotate]).
Proof.
  unfold before_crawl, gap.
  destruct (should_rotate_session _ _);
    [exists [EvRotate] | exists []];
    (split; [|auto]);
    destruct (idx >? 1), (idx =? 1); simpl;
    rewrite <- ?app_assoc, ?app_nil_r; reflexivity.
Qed.

Lemma analyse_quiet (rt : list pystr) (v : DailyRate) :
  Forall quiet (analyse rt v).
Proof.
  unfold analyse. destruct (_ <? _); [|constructor].
  destruct (decide _); repeat constructor.
Qed.

Lemma after_crawl_shape (profile : HotelProfile) (d : pystr)
    (r : CrawlResult) (s : RunState) :
  ∃ post, log (after_crawl L E profile d r s) = log s ++ post
          ∧ Forall quiet post.
Proof.
  unfold after_crawl.
  destruct (usable_content r) as [c|]; [destruct (has_captcha c)|].
  - eexists. simpl. rewrite <- !app_assoc. split; [reflexivity|].
    repeat constructor. simpl. congruence.
  - unfold handle_content, parse_failed.
    destruct (json_loads L (to_parse c)) as [[]|]; simpl;
      try (eexists; split; [reflexivity | repeat constructor]).
    destruct (model_validate L _); simpl.
    + eexists. split; [reflexivity | apply analyse_quiet].
    + eexists. split; [reflexivity | repeat constructor].
  - eexists. simpl. rewrite <- !app_assoc. split; [reflexivity|].
    repeat constructor. simpl. congruence.
Qed.

Lemma scrape_one_shape (profile : HotelProfile) (idx : Z) (item : UrlDate)
    (s : RunState) :
  ∃ seg, log (scrape_one L E profile idx item s) = log s ++ seg
         ∧ turn (idx, item) seg.
Proof.
  unfold scrape_one.
  destruct (before_crawl_shape idx s) as (rot & Hlog & Hrot).
  match goal with
  | |- context [after_crawl L E profile ?d ?r ?s1] =>
      destruct (after_crawl_shape profile d r s1) as (post & Hpost & Hq)
  end.
  rewrite Hpost. simpl. rewrite Hlog.
  exists (rot ++ gap idx
            ++ [EvCrawl idx (url item)
                  (user_agent (session_manager (before_crawl E idx s)))
                  (viewport (session_manager (before_crawl E idx s)))]
            ++ post).
  split; [rewrite <- !app_assoc; reflexivity|].
  exists rot, (user_agent (session_manager (before_crawl E idx s))),
         (viewport (session_manager (before_crawl E idx s))), post.
  split; [reflexivity|]. split; assumption.
Qed.

Lemma turns_shape (profile : HotelProfile) (items : list UrlDate) :
  ∀ k s, ∃ segs,
    log (foldl (body profile) s (enumerate k items)) = log s ++ concat segs
    ∧ Forall2 turn (enumerate k items) segs.
Proof.
  induction items as [|item items IH]; intros k s; simpl.
  - exists []. simpl. rewrite app_nil_r. split; [reflexivity | constructor].
  - destruct (scrape_one_shape profile k item s) as (seg & Hlog & Hseg).
    destruct (IH (k + 1) (scrape_one L E profile k item s))
      as (segs & Hlog' & Hsegs).
    exists (seg :: segs). split.
    + rewrite Hlog', Hlog, <- app_assoc. reflexivity.
    + constructor; assumption.
Qed.

(** X6. The effects of a run are the turns of its dates, one after the
    other, and in every turn the crawl comes directly after the delay of 8
    to 20 seconds between requests or, at the first date, after the
    warm-up; neither a crawl, nor the warm-up, nor that delay occurs
    anywhere else, and at most one rotation comes before them. *)
Theorem run_is_paced (profile : HotelProfile) (start : date) (n : Z)
    (out : Outcome) :
  scrape_hotel_prices L E profile start n = Some out ->
  ∃ urls segs,
    plan L (hotel_url profile) start n = Some urls
    ∧ effects out = concat segs
    ∧ Forall2 turn (enumerate 1 urls) segs.
Proof.
  unfold scrape_hotel_prices. simpl.
  destruct (plan L (hotel_url profile) start n) as [urls|]; [|discriminate].
  simpl. intros Hout. injection Hout as <-. simpl.
  unfold scrape_loop.
  match goal with
  | |- context [foldl ?f ?s0 (enumerate 1 urls)] =>
      destruct (turns_shape profile urls 1 s0) as (segs & Hlog & Hsegs)
  end.
  exists urls, segs. split; [reflexivity|]. split; assumption.
Qed.

(** *** What a turn contributes *)

(** X7. A turn whose response is usable, is not taken for a CAPTCHA page,
    parses to an object and validates adds exactly that rate, keeps the
    session and reports at most the missing rooms; every other turn adds no
    rate and begins what it does next with a report of the failure. *)
Theorem turn_outcome (profile : HotelProfile) (d : pystr) (r : CrawlResult)
    (s : RunState) :
  let s' := after_crawl L E profile d r s in
  match validated_rate L r with
  | Some v =>
      all_daily_rates s' = all_daily_rates s ++ [v]
      ∧ log s' = log s ++ analyse (room_types profile) v
      ∧ session_manager s' = session_manager s
  | None =>
      all_daily_rates s' = all_daily_rates s
      ∧ ∃ e post, log s' = log s ++ e :: post ∧ reports_failure e
  end.
Proof.
  unfold validated_rate, after_crawl. simpl.
  destruct (usable_content r) as [c|]; [destruct (has_captcha c)|].
  - simpl. split; [reflexivity|]. do 2 eexists.
    rewrite <- !app_assoc. split; [reflexivity | exact I].
  - unfold handle_content, parse_failed.
    destruct (json_loads L (to_parse c)) as [[]|]; simpl;
      try (split; [reflexivity|]; do 2 eexists;
           split; [reflexivity | exact I]).
    destruct (model_validate L _); simpl.
    + repeat split; reflexivity.
    + split; [reflexivity|]. do 2 eexists. split; [reflexivity | exact I].
  - simpl. split; [reflexivity|]. do 2 eexists.
    rewrite <- !app_assoc. split; [reflexivity | exact I].
Qed.

(** *** What a run returns *)

Lemma scrape_one_rates (profile : HotelProfile) (idx : Z) (item : UrlDate)
    (s : RunState) :
  (length (all_daily_rates (scrape_one L E profile idx item s))
   <= S (length (all_daily_rates s)))%nat.
Proof.
  unfold scrape_one.
  match goal with
  | |- context [after_crawl L E profile ?d ?r ?s1] =>
      set (r0 := r); set (s1' := s1)
  end.
  assert (Hs1 : all_daily_rates s1' = all_daily_rates s).
  { subst s1'. simpl.
    destruct (before_crawl_log E idx s) as (_ & _ & _ & H). exact H. }
  pose proof (turn_outcome profile (date_str item) r0 s1') as Hout.
  cbv zeta in Hout. destruct (validated_rate L r0).
  - destruct Hout as (Heq & _). rewrite Heq, length_app, Hs1. simpl. lia.
  - destruct Hout as (Heq & _). rewrite Heq, Hs1. lia.
Qed.

Lemma turns_rates (profile : HotelProfile) (turns : list (Z * UrlDate)) :
  ∀ s, (length (all_daily_rates (foldl (body profile) s turns))
        <= length (all_daily_rates s) + length turns)%nat.
Proof.
  induction turns as [|[idx item] turns IH]; intros s; simpl; [lia|].
  pose proof (IH (scrape_one L E profile idx item s)).
  pose proof (scrape_one_rates profile idx item s). lia.
Qed.

Lemma enumerate_length {A} (l : list A) :
  ∀ k, length (enumerate k l) = length l.
Proof. induction l as [|x l IH]; intros k; simpl; [|rewrite IH]; reflexivity. Qed.

(** X8. A run never returns an empty record: it returns either nothing or
    the data of the hotel of the profile with at least one rate and at most
    one rate per day asked for. *)
Theorem run_returns_rates_or_nothing (profile : HotelProfile) (start : date)
    (n : Z) (out : Outcome) :
  scrape_hotel_prices L E profile start n = Some out ->
  match final_data out with
  | None => True
  | Some data =>
      data_hotel_name data = hotel_name profile
      ∧ daily_rates data ≠ []
      ∧ len (daily_rates data) <= n
  end.
Proof.
  unfold scrape_hotel_prices. simpl.
  destruct (plan L (hotel_url profile) start n) as [urls|] eqn:Hplan;
    [|discriminate].
  simpl. intros Hout. injection Hout as <-. simpl.
  unfold scrape_loop.
  match goal with
  | |- context [foldl ?f ?s0 (enumerate 1 urls)] =>
      pose proof (turns_rates profile (enumerate 1 urls) s0) as Hlen;
      destruct (all_daily_rates (foldl f s0 (enumerate 1 urls)))
        as [|rate rates] eqn:Hrates
  end; [exact I|].
  simpl. split; [reflexivity|]. split; [discriminate|].
  unfold plan in Hplan. apply length_mapM in Hplan.
  rewrite enumerate_length in Hlen. simpl in Hlen.
  unfold py_range in Hplan. rewrite length_map, length_seq in Hplan.
  unfold len. simpl. lia.
Qed.

(** *** Runs without dates, and dates out of range *)

(** X9. Asked for no day, or for a negative number of days, the function
    crawls nothing and returns nothing. *)
Theorem run_of_no_day (profile : HotelProfile) (start : date) (n : Z) :
  n <= 0 ->
  scrape_hotel_prices L E profile start n
  = Some {| final_data := None; effects := [] |}.
Proof.
  intros Hn. unfold scrape_hotel_prices, plan, py_range.
  replace (Z.to_nat n) with 0%nat by lia. reflexivity.
Qed.

Lemma plan_out_of_range (base : pystr) (start : date) (n : Z) :
  1 <= n -> date_max < start + n -> plan L base start n = None.
Proof.
  intros Hn Hmax. unfold plan. apply mapM_None_2.
  apply Exists_exists. exists (n - 1). split.
  - unfold py_range. apply list_elem_of_fmap. exists (Z.to_nat (n - 1)).
    split; [lia|]. apply elem_of_seq. lia.
  - unfold plan_item, date_add.
    destruct ((date_min <=? start + (n - 1)) && (start + (n - 1) <=? date_max));
      [|reflexivity].
    simpl.
    destruct (Z.leb_spec (start + (n - 1) + 1) date_max); [lia|].
    rewrite andb_false_r. reflexivity.
Qed.

(** X10. For a start date in the range of [datetime.date] and at least one
    day, the function raises, before any crawl, exactly when the check-out
    date of the last day lies after [date.max]. *)
Theorem run_raises_past_last_date (profile : HotelProfile) (start : date)
    (n : Z) :
  date_min <= start <= date_max ->
  1 <= n ->
  (scrape_hotel_prices L E profile start n = None ↔ date_max < start + n).
Proof.
  intros Hstart Hn. unfold scrape_hotel_prices. simpl. split.
  - intros Hnone.
    destruct (Z.ltb_spec date_max (start + n)) as [|Hin]; [assumption|].
    rewrite plan_in_range in Hnone; [discriminate|].
    intros i Hi. unfold date_min in *. lia.
  - intros Hmax. rewrite plan_out_of_range by assumption. reflexivity.
Qed.

End LoopMore.

Section LoopMoreExamples.
Import Session Pricing Loops.

Lemma run_is_paced_witness :
  ∃ out urls segs,
    scrape_hotel_prices (fixed_lib two_of_three) (const_env (page (py "{}")))
      demo_profile 739489 3 = Some out
    ∧ plan (fixed_lib two_of_three) (hotel_url demo_profile) 739489 3
      = Some urls
    ∧ effects out = concat segs
    ∧ Forall2 turn (enumerate 1 urls) segs.
Proof.
  destruct (scrape_hotel_prices (fixed_lib two_of_three)
              (const_env (page (py "{}"))) demo_profile 739489 3)
    as [out|] eqn:Hout; [|vm_compute in Hout; discriminate].
  destruct (run_is_paced (fixed_lib two_of_three) (const_env (page (py "{}")))
              demo_profile 739489 3 out Hout) as (urls & segs & H).
  exists out, urls, segs. split; [reflexivity | exact H].
Defined.

Lemma run_returns_rates_or_nothing_witness :
  ∃ out data,
    scrape_hotel_prices (fixed_lib two_of_three) (const_env (page (py "{}")))
      demo_profile 739489 3 = Some out
    ∧ final_data out = Some data
    ∧ data_hotel_name data = hotel_name demo_profile
    ∧ daily_rates data ≠ []
    ∧ len (daily_rates data) <= 3.
Proof.
  destruct (scrape_hotel_prices (fixed_lib two_of_three)
              (const_env (page (py "{}"))) demo_profile 739489 3)
    as [out|] eqn:Hout; [|vm_compute in Hout; discriminate].
  pose proof (run_returns_rates_or_nothing (fixed_lib two_of_three)
                (const_env (page (py "{}"))) demo_profile 739489 3 out Hout)
    as H.
  destruct (final_data out) as [data|] eqn:Hdata.
  - exists out, data. split; [reflexivity|]. split; [exact Hdata | exact H].
  - exfalso. vm_compute in Hout. injection Hout as <-. discriminate.
Defined.

Lemma run_of_no_day_witness :
  scrape_hotel_prices demo_lib (const_env (page (py "{}"))) demo_profile
    739489 (-2)
  = Some {| final_data := None; effects := [] |}.
Proof. apply run_of_no_day. lia. Defined.

Lemma run_raises_past_last_date_witness :
  scrape_hotel_prices demo_lib (const_env (page (py "{}"))) demo_profile
    3652059 1 = None.
Proof.
  apply run_raises_past_last_date; unfold date_min, date_max; lia.
Defined.

End LoopMoreExamples.

(** ** The two keyword lists *)

Section KeywordLists.
Import Pricing.

(** X11. The response check (lines 762-766) and the test of the script
    injected into the page (lines 680-688) differ by one keyword only:
    whatever the response check flags, the injected script flags, and what
    only the injected script flags contains the word robot. *)
Theorem keyword_lists_differ_by_robot (text : pystr) :
  (has_captcha text = true -> page_has_captcha text = true)
  ∧ (page_has_captcha text = true ->
     has_captcha text = true ∨ contains (py "robot") (lower text) = true).
Proof.
  unfold has_captcha, page_has_captcha, captcha_indicators, captchaKeywords.
  cbn [existsb].
  change (lower (py "Show us your human side"))
    with (py "show us your human side").
  change (lower (py "prove you are human")) with (py "prove you are human").
  change (lower (py "captcha")) with (py "captcha").
  change (lower (py "robot")) with (py "robot").
  change (lower (py "Start Puzzle")) with (py "start puzzle").
  generalize (lower text). intros l.
  destruct (contains (py "show us your human side") l),
    (contains (py "prove you are human") l),
    (contains (py "captcha") l),
    (contains (py "robot") l),
    (contains (py "start puzzle") l); simpl; auto.
Qed.

Lemma keyword_lists_differ_by_robot_witness :
  page_has_captcha (py "Please solve the CAPTCHA below") = true
  ∧ (has_captcha (py "Are you a robot?") = true
     ∨ contains (py "robot") (lower (py "Are you a robot?")) = true).
Proof.
  split.
  - apply (keyword_lists_differ_by_robot (py "Please solve the CAPTCHA below")).
    reflexivity.
  - apply (keyword_lists_differ_by_robot (py "Are you a robot?")).
    reflexivity.
Defined.

End KeywordLists.

(** ** The delay between requests *)

Section DelayFacts.
Import Delay.
Local Open Scope Q_scope.

Lemma random_unit_range (E : Env) (t : nat) :
  0 <= random_unit E t ∧ random_unit E t < 1.
Proof.
  unfold random_unit.
  pose proof (Z.mod_pos_bound (random_raw E t) (2 ^ 53) eq_refl) as [Hlo Hhi].
  assert (Hd : 0 < inject_Z (2 ^ 53)) by reflexivity.
  split.
  - apply Qle_shift_div_l; [exact Hd|]. rewrite Qmult_0_l.
    change 0 with (inject_Z 0). rewrite <- Zle_Qle. exact Hlo.
  - apply Qlt_shift_div_r; [exact Hd|]. rewrite Qmult_1_l.
    rewrite <- Zlt_Qlt. exact Hhi.
Qed.

Lemma uniform_range (E : Env) (t : nat) (a b : Q) :
  a <= b -> a <= uniform E t a b ∧ uniform E t a b <= b.
Proof.
  intros Hab. unfold uniform.
  destruct (random_unit_range E t) as [Hlo Hhi].
  split; nra.
Qed.

Lemma thinking_choice_range (E : Env) (t : nat) :
  (1 # 10) <= random_choice E t thinking_delays 0
  ∧ random_choice E t thinking_delays 0 <= (4 # 5).
Proof.
  assert (Hin : random_choice E t thinking_delays 0 ∈ thinking_delays)
    by (apply random_choice_elem; discriminate).
  apply list_elem_of_In in Hin. unfold thinking_delays in *. simpl in Hin.
  destruct Hin as [Heq|[Heq|[Heq|[Heq|[]]]]]; rewrite <- Heq;
    split; unfold Qle; simpl; lia.
Qed.

(** X12. A call of [human_like_delay(lo, hi)] with [lo <= hi] sleeps one to
    three times for 0.1 to 0.8 seconds and then once for the main delay,
    which is at least [lo] and at most [hi + 15] seconds; in all it sleeps
    at least [lo + 0.1] and at most [hi + 17.4] seconds. *)
Theorem delay_is_bounded (E : Env) (t : nat) (lo hi : Q) :
  lo <= hi ->
  ∃ pauses main,
    fst (human_like_delay E t lo hi) = pauses ++ [main]
    ∧ (1 <= length pauses <= 3)%nat
    ∧ Forall (fun x => (1 # 10) <= x ∧ x <= (4 # 5)) pauses
    ∧ lo <= main ∧ main <= hi + 15
    ∧ lo + (1 # 10) <= total (fst (human_like_delay E t lo hi))
    ∧ total (fst (human_like_delay E t lo hi)) <= hi + (87 # 5).
Proof.
  intros Hle. unfold human_like_delay. cbn [fst].
  set (t' := if Qlt_le_dec (random_unit E (t + 1)) (1 # 10)
             then (t + 3)%nat else (t + 2)%nat).
  set (main := if Qlt_le_dec (random_unit E (t + 1)) (1 # 10)
               then uniform E t lo hi + uniform E (t + 2) 5 15
               else uniform E t lo hi).
  assert (Hmain : lo <= main ∧ main <= hi + 15).
  { subst main. destruct (uniform_range E t lo hi Hle) as [H1 H2].
    destruct (uniform_range E (t + 2) 5 15 ltac:(unfold Qle; simpl; lia))
      as [H3 H4].
    destruct (Qlt_le_dec _ _); split; lra. }
  pose proof (randint_range E t' 1 3 ltac:(lia)) as Hk.
  pose proof (thinking_choice_range E (S t')) as [Ha1 Ha2].
  pose proof (thinking_choice_range E (S (S t'))) as [Hb1 Hb2].
  pose proof (thinking_choice_range E (S (S (S t')))) as [Hc1 Hc2].
  destruct Hmain as [Hm1 Hm2].
  exists (thinking E (S t') (Z.to_nat (randint E t' 1 3))), main.
  split; [reflexivity|].
  assert (Hcases : Z.to_nat (randint E t' 1 3) = 1%nat
                   ∨ Z.to_nat (randint E t' 1 3) = 2%nat
                   ∨ Z.to_nat (randint E t' 1 3) = 3%nat) by lia.
  destruct Hcases as [-> | [-> | ->]]; cbn [thinking app length];
    (split; [lia|]); (split; [repeat constructor; assumption|]);
    (split; [exact Hm1|]); (split; [exact Hm2|]);
    unfold total; cbn [fold_right]; split; lra.
Qed.

Lemma delay_is_bounded_witness :
  let E := const_env (page []) in
  ∃ pauses main,
    fst (human_like_delay E 0 8 20) = pauses ++ [main]
    ∧ (1 <= length pauses <= 3)%nat
    ∧ Forall (fun x => (1 # 10) <= x ∧ x <= (4 # 5)) pauses
    ∧ 8 <= main ∧ main <= 20 + 15
    ∧ 8 + (1 # 10) <= total (fst (human_like_delay E 0 8 20))
    ∧ total (fst (human_like_delay E 0 8 20)) <= 20 + (87 # 5).
Proof.
  intros E. apply (delay_is_bounded E 0 8 20). unfold Qle. simpl. lia.
Defined.

End DelayFacts.

(** ** The statistics of a pricing run *)

Section SummaryFacts.
Import Summary.

Lemma is_price_true (p : pystr) :
  p ≠ py "Not Listed" -> p ≠ py "Price Not Available" -> p ≠ py "Sold Out" ->
  is_price p = true.
Proof.
  intros H1 H2 H3. unfold is_price. rewrite bool_decide_eq_false_2; [reflexivity|].
  intros Hin. repeat (apply elem_of_cons in Hin as [?|Hin]; [contradiction|]).
  inversion Hin.
Qed.

(** X13. Of the counts printed for a validated rate, the rooms with prices,
    the sold-out rooms and the rooms not listed add up to the number of
    listings less those whose price is the status Price Not Available, which
    none of the three counts includes. *)
Theorem printed_counts_add_up (v : DailyRate) :
  with_prices v + sold_out v + not_listed v
  = len (listings v)
    - len (filter (fun l => price l = py "Price Not Available") (listings v)).
Proof.
  unfold with_prices, sold_out, not_listed.
  induction (listings v) as [|l ls IH]; [reflexivity|].
  rewrite !filter_cons, len_cons.
  destruct (decide (price l = py "Sold Out")) as [Hs|Hs].
  - rewrite Hs in *.
    rewrite decide_False by (vm_compute; discriminate).
    rewrite decide_False by discriminate.
    rewrite decide_False by discriminate.
    rewrite len_cons. lia.
  - destruct (decide (price l = py "Not Listed")) as [Hn|Hn].
    + rewrite Hn in *.
      rewrite decide_False by (vm_compute; discriminate).
      rewrite decide_False by discriminate.
      rewrite len_cons. lia.
    + destruct (decide (price l = py "Price Not Available")) as [Hp|Hp].
      * rewrite Hp in *.
        rewrite decide_False by (vm_compute; discriminate).
        rewrite len_cons. lia.
      * rewrite decide_True by (apply is_price_true; assumption).
        rewrite len_cons. lia.
Qed.

Lemma add_listing_lookup (m : gmap pystr (list pystr)) (l : RoomListing)
    (n : pystr) :
  add_listing m l !! n
  = if decide (n = name l) then Some (default [] (m !! n) ++ [price l])
    else m !! n.
Proof.
  unfold add_listing. destruct (decide (n = name l)) as [->|Hne].
  - rewrite lookup_insert_eq. destruct (m !! name l) eqn:Hm.
    + rewrite Hm. reflexivity.
    + rewrite lookup_insert_eq. reflexivity.
  - rewrite lookup_insert_ne by congruence.
    destruct (m !! name l); [reflexivity|].
    rewrite lookup_insert_ne by congruence. reflexivity.
Qed.

Lemma prices_of_snoc (n : pystr) (ls : list RoomListing) (l : RoomListing) :
  prices_of n (ls ++ [l])
  = prices_of n ls ++ (if decide (n = name l) then [price l] else []).
Proof.
  unfold prices_of. rewrite filter_app, map_app. f_equal.
  rewrite filter_cons, filter_nil.
  destruct (decide (name l = n)), (decide (n = name l));
    try reflexivity; congruence.
Qed.

(** The entry of a name in the dictionary of prices, given the prices
    listed under it. *)
Lemma listings_lookup (ls : list RoomListing) : ∀ m ls0,
  (∀ n, m !! n = match prices_of n ls0 with [] => None | ps => Some ps end) ->
  ∀ n, foldl add_listing m ls !! n
       = match prices_of n (ls0 ++ ls) with [] => None | ps => Some ps end.
Proof.
  induction ls as [|l ls IH]; intros m ls0 Hm n.
  - rewrite app_nil_r. apply Hm.
  - simpl. replace (ls0 ++ l :: ls) with ((ls0 ++ [l]) ++ ls)
      by (rewrite <- app_assoc; reflexivity).
    apply IH. intros n'. rewrite add_listing_lookup, prices_of_snoc, Hm.
    destruct (decide (n' = name l)).
    + destruct (prices_of n' ls0); reflexivity.
    + rewrite app_nil_r. reflexivity.
Qed.

Lemma rates_lookup (rates : list DailyRate) : ∀ m rates0,
  (∀ n, m !! n = match prices_of n (all_listings rates0) with
                 | [] => None | ps => Some ps end) ->
  ∀ n, foldl (fun m daily_rate => foldl add_listing m (listings daily_rate))
         m rates !! n
       = match prices_of n (all_listings (rates0 ++ rates)) with
         | [] => None | ps => Some ps end.
Proof.
  induction rates as [|r rates IH]; intros m rates0 Hm n.
  - rewrite app_nil_r. apply Hm.
  - simpl. replace (rates0 ++ r :: rates) with ((rates0 ++ [r]) ++ rates)
      by (rewrite <- app_assoc; reflexivity).
    apply IH. intros n'.
    unfold all_listings. rewrite map_app, concat_app. simpl.
    rewrite app_nil_r. apply listings_lookup. exact Hm.
Qed.

(** X14. The dictionary of prices built for the summary holds, for a room
    name, the prices of all listings under that name in the order of the
    rates, and no entry for a name without listing; so the summary has one
    line for each room type of the profile that was listed at least once,
    with the number of its priced listings out of the number of all its
    listings, and no line for a listed name that the profile does not
    know. *)
Theorem summary_counts_listings (room_types : list pystr)
    (rates : list DailyRate) (n : pystr) (line : pystr * Z * Z) :
  room_prices rates !! n
  = match prices_of n (all_listings rates) with
    | [] => None
    | prices => Some prices
    end
  ∧ (line ∈ availability room_types rates
     ↔ ∃ room, room ∈ room_types
               ∧ prices_of room (all_listings rates) ≠ []
               ∧ line = (room,
                         len (filter (fun p => is_price p = true)
                                (prices_of room (all_listings rates))),
                         len (prices_of room (all_listings rates)))).
Proof.
  assert (Hlookup : ∀ n, room_prices rates !! n
            = match prices_of n (all_listings rates) with
              | [] => None | ps => Some ps end).
  { intros n'. unfold room_prices.
    apply (rates_lookup rates ∅ []). intros n''. apply lookup_empty. }
  split; [apply Hlookup|].
  unfold availability. rewrite list_elem_of_omap. split.
  - intros (room & Hroom & Hline). exists room. split; [exact Hroom|].
    rewrite Hlookup in Hline.
    destruct (prices_of room (all_listings rates)) as [|p ps]; [discriminate|].
    injection Hline as <-. split; [discriminate | reflexivity].
  - intros (room & Hroom & Hne & ->). exists room. split; [exact Hroom|].
    rewrite Hlookup.
    destruct (prices_of room (all_listings rates)) as [|p ps];
      [contradiction | reflexivity].
Qed.

End SummaryFacts.

(** ** More on the discovery run *)

Section DiscoveryMore.
Import Discovery Loops.
Context (L : Lib) (E : Env).

Lemma announced_app (a b : list Event) :
  announced (a ++ b) = announced a ++ announced b.
Proof. unfold announced. rewrite omap_app, concat_app. reflexivity. Qed.

Lemma elem_of_sorted (x : pystr) (l : list pystr) : x ∈ sorted l ↔ x ∈ l.
Proof. unfold sorted. rewrite (merge_sort_Permutation str_le). reflexivity. Qed.

Lemma NoDup_sorted (l : list pystr) : NoDup l -> NoDup (sorted l).
Proof. unfold sorted. rewrite (merge_sort_Permutation str_le). auto. Qed.

Lemma absorb_announced (r : CrawlResult) (s : LoopState) :
  announced_ok s -> announced_ok (absorb L r s).
Proof.
  intros [Hnd Hin].
  assert (Hnew : ∀ cur : gset pystr,
    announced_ok
      {| tick := tick s;
         discovered_rooms := update (discovered_rooms s) cur;
         sample_dates_acc := sample_dates_acc s;
         log := log s ++
                (if decide (cur ∖ discovered_rooms s = ∅) then []
                 else [EvNewRooms (sorted (elements (cur ∖ discovered_rooms s)))])
      |}).
  { intros cur. unfold announced_ok. simpl. rewrite announced_app.
    assert (Hann : announced
              (if decide (cur ∖ discovered_rooms s = ∅) then []
               else [EvNewRooms (sorted (elements (cur ∖ discovered_rooms s)))])
            = sorted (elements (cur ∖ discovered_rooms s))).
    { destruct (decide _) as [Hempty|_].
      - rewrite Hempty, elements_empty. reflexivity.
      - unfold announced. simpl. apply app_nil_r. }
    rewrite Hann. split.
    - apply NoDup_app. split; [exact Hnd|]. split.
      + intros x Hx Hx'. apply elem_of_sorted, elem_of_elements in Hx'.
        apply Hin in Hx. apply elem_of_difference in Hx' as [_ Hnot].
        contradiction.
      + apply NoDup_sorted, NoDup_elements.
    - intros x. rewrite elem_of_app, elem_of_sorted, elem_of_elements, Hin.
      unfold update. rewrite elem_of_union, elem_of_difference.
      destruct (decide (x ∈ discovered_rooms s)); tauto. }
  unfold absorb.
  destruct (usable_content r) as [c|].
  - destruct (json_loads L c) as [[]|]; try apply Hnew;
      unfold announced_ok; simpl; rewrite announced_app; simpl;
      rewrite app_nil_r; split; assumption.
  - unfold announced_ok. simpl. rewrite announced_app. simpl.
    rewrite app_nil_r. split; assumption.
Qed.

Lemma sample_loop_more (base : pystr) (start : date) (interval : Z)
    (offsets : list Z) : ∀ s s',
  sample_loop L E base start interval offsets s = Some s' ->
  (announced_ok s -> announced_ok s')
  ∧ length (sample_dates_acc s')
    = (length (sample_dates_acc s) + length offsets)%nat.
Proof.
  induction offsets as [|off offsets IH]; intros s s' Hloop.
  - injection Hloop as <-. split; [auto | simpl; lia].
  - simpl in Hloop. unfold sample_one in Hloop.
    destruct (date_add start (off * interval)) as [d1|]; [|discriminate].
    simpl in Hloop.
    destruct (date_add d1 1) as [d2|]; [|discriminate].
    simpl in Hloop.
    match type of Hloop with
    | context [absorb L ?r ?s1] =>
        set (r0 := r) in Hloop; set (s1' := s1) in Hloop
    end.
    destruct (IH _ _ Hloop) as [Hok Hlen].
    destruct (absorb_spec L r0 s1') as (_ & Hd & _ & _).
    split.
    + intros Hs. apply Hok. apply absorb_announced.
      destruct Hs as [Hnd Hin]. unfold announced_ok. subst s1'. simpl.
      rewrite !announced_app.
      assert (Hnone : announced (if off >? 0 then [EvSleep 3 7] else []) = [])
        by (destruct (off >? 0); reflexivity).
      rewrite Hnone. simpl. rewrite !app_nil_r. split; assumption.
    + rewrite Hlen, Hd. subst s1'. simpl. rewrite length_app. simpl. lia.
Qed.

(** X15. Over a discovery run, the room names announced as new are the room
    types of the profile returned, each announced exactly once. *)
Theorem new_rooms_announced_once (hotel base : pystr) (start : date)
    (count interval : Z) (out : Outcome) :
  discover_hotel_rooms L E hotel base start count interval = Some out ->
  announced (effects out) ≡ₚ room_types (profile out).
Proof.
  unfold discover_hotel_rooms. intros Hout.
  destruct (sample_loop L E base start interval (py_range count) _)
    as [s|] eqn:Hloop; [|discriminate].
  simpl in Hout. injection Hout as <-. simpl.
  apply sample_loop_more in Hloop as [Hok _].
  destruct Hok as [Hnd Hin].
  { split; [constructor|]. intros x. simpl. set_solver. }
  apply NoDup_Permutation.
  - exact Hnd.
  - apply NoDup_sorted, NoDup_elements.
  - intros x. rewrite elem_of_sorted, elem_of_elements. apply Hin.
Qed.

(** X16. The profile returned by a discovery run is consistent with its
    metadata: it bears the hotel name and the base URL given, the number of
    rooms recorded is the number of its room types, the interval and the
    number of dates asked for are recorded as given, and there is one sample
    date for each date asked for (none when that number is negative). *)
Theorem profile_metadata_consistent (hotel base : pystr) (start : date)
    (count interval : Z) (out : Outcome) :
  discover_hotel_rooms L E hotel base start count interval = Some out ->
  ∃ md,
    metadata (profile out) = Some md
    ∧ hotel_name (profile out) = hotel
    ∧ hotel_url (profile out) = base
    ∧ last_updated (profile out) = today_iso E
    ∧ total_rooms_discovered md = len (room_types (profile out))
    ∧ sample_interval_days md = interval
    ∧ discovery_dates_checked md = count
    ∧ len (sample_dates md) = Z.max 0 count.
Proof.
  unfold discover_hotel_rooms. intros Hout.
  destruct (sample_loop L E base start interval (py_range count) _)
    as [s|] eqn:Hloop; [|discriminate].
  simpl in Hout. injection Hout as <-. simpl.
  apply sample_loop_more in Hloop as [_ Hlen].
  eexists. split; [reflexivity|]. simpl.
  repeat split.
  - unfold len, sorted. rewrite (merge_sort_Permutation str_le). reflexivity.
  - unfold len. rewrite Hlen. simpl.
    unfold py_range. rewrite length_map, length_seq. lia.
Qed.

End DiscoveryMore.

Section DiscoveryMoreExamples.
Import Discovery Loops.

Lemma new_rooms_announced_once_witness :
  ∃ out,
    discover_hotel_rooms rooms_lib (const_env (page (py "[...]")))
      (py "Minn Juso") (py "https://example.test/hotel") 739489 3 7 = Some out
    ∧ announced (effects out) ≡ₚ room_types (profile out)
    ∧ room_types (profile out) = [py "Double Room"; py "Twin Room"].
Proof.
  destruct (discover_hotel_rooms rooms_lib (const_env (page (py "[...]")))
              (py "Minn Juso") (py "https://example.test/hotel") 739489 3 7)
    as [out|] eqn:Hout; [|vm_compute in Hout; discriminate].
  exists out. split; [reflexivity|]. split.
  - apply (new_rooms_announced_once rooms_lib (const_env (page (py "[...]")))
             (py "Minn Juso") (py "https://example.test/hotel") 739489 3 7).
    exact Hout.
  - vm_compute in Hout. injection Hout as <-. reflexivity.
Defined.

Lemma profile_metadata_consistent_witness :
  ∃ out md,
    discover_hotel_rooms rooms_lib (const_env (page (py "[...]")))
      (py "Minn Juso") (py "https://example.test/hotel") 739489 3 7 = Some out
    ∧ metadata (profile out) = Some md
    ∧ hotel_name (profile out) = py "Minn Juso"
    ∧ hotel_url (profile out) = py "https://example.test/hotel"
    ∧ last_updated (profile out) = py "2025-08-26"
    ∧ total_rooms_discovered md = len (room_types (profile out))
    ∧ sample_interval_days md = 7
    ∧ discovery_dates_checked md = 3
    ∧ len (sample_dates md) = Z.max 0 3.
Proof.
  destruct (discover_hotel_rooms rooms_lib (const_env (page (py "[...]")))
              (py "Minn Juso") (py "https://example.test/hotel") 739489 3 7)
    as [out|] eqn:Hout; [|vm_compute in Hout; discriminate].
  destruct (profile_metadata_consistent rooms_lib
              (const_env (page (py "[...]"))) (py "Minn Juso")
              (py "https://example.test/hotel") 739489 3 7 out Hout)
    as (md & H).
  exists out, md. split; [reflexivity | exact H].
Defined.

End DiscoveryMoreExamples.

(** ** The room names of one answer *)

Section SampleFacts.
Import Discovery.

(** X18. The room names taken from an answer are its strings, as they are,
    and the string forms of its objects; numbers, booleans, nulls and
    nested lists in the answer are passed over. *)
Theorem sample_takes_strings_and_objects (L : Lib) (room_list : list json)
    (x : pystr) :
  x ∈ current_sample_rooms L room_list
  ↔ JString x ∈ room_list
    ∨ ∃ members, JObject members ∈ room_list ∧ repr_dict L members = x.
Proof.
  unfold current_sample_rooms.
  rewrite elem_of_list_to_set. split.
  - intros Hx. apply list_elem_of_fmap in Hx as (item & -> & Hin).
    apply list_elem_of_filter in Hin as [Hsd Hin].
    destruct item; try discriminate.
    + left. exact Hin.
    + right. eexists. split; [exact Hin | reflexivity].
  - intros [Hin|(members & Hin & <-)]; apply list_elem_of_fmap.
    + exists (JString x). split; [reflexivity|].
      apply list_elem_of_filter. split; [reflexivity | exact Hin].
    + exists (JObject members). split; [reflexivity|].
      apply list_elem_of_filter. split; [reflexivity | exact Hin].
Qed.

End SampleFacts.
